(** * Video analysis service (main.py): model and verified properties

    A shallow embedding of the Flask application in [main.py]: the four
    analysis stages ([extract_metadata], [calculate_file_hash],
    [analyze_video_frames], [get_video_frame]), the orchestrator
    [perform_full_analysis] that writes into the global dictionary
    [analysis_progress], and the three routes [upload_file],
    [get_progress] and [get_results].

    Conventions.
    - Python dictionaries keyed by strings are [gmap string _].
    - Python floats are modelled by exact rationals [Q]; every division is
      guarded the way Python guards it (a zero divisor raises). A quotient
      or a rounding is the exact one, where the program has the nearest
      double: a value shown with two decimals can differ in its last digit
      when the exact value is a tie. Order, bounds and exact values such as
      100 are the same in both.
    - A Python string is the [string] of its characters; the model has the
      strings whose code points are below 256.
    - A Python call that may raise is a computation in the monad [M]: it
      threads the global store and ends in [Ret v] or in [Raise msg], where
      [msg] is what [str(e)] gives in the handler.
    - The libraries the program calls (pymediainfo, OpenCV, the file
      system, the clock, werkzeug) are inputs, gathered in the record [env].
      [hashlib.sha256] is modelled by SHA-256 as FIPS 180-4 defines it. *)

From Stdlib Require Import ZArith QArith Qround Qabs Strings.Byte Ascii String.
From Stdlib Require Import DecimalString DecimalPos DecimalZ.
From stdpp Require Import gmap strings list fin_maps sorting.
From Equations Require Import Equations.
From Equations.Prop Require Import Logic.

Local Open Scope Z_scope.

(** ** SHA-256 (FIPS 180-4), the function behind [hashlib.sha256] *)

Module Sha256.

Definition wmod : Z := 2 ^ 32.

(** 32-bit words are integers in [0, 2^32); sums wrap around. *)
Definition add32 (x y : Z) : Z := (x + y) mod wmod.

Definition rotr (n x : Z) : Z :=
  Z.lor (Z.shiftr x n) ((Z.shiftl x (32 - n)) mod wmod).

Definition shr (n x : Z) : Z := Z.shiftr x n.

Definition not32 (x : Z) : Z := Z.lxor x (wmod - 1).

Definition Ch (x y z : Z) : Z :=
  Z.lxor (Z.land x y) (Z.land (not32 x) z).

Definition Maj (x y z : Z) : Z :=
  Z.lxor (Z.lxor (Z.land x y) (Z.land x z)) (Z.land y z).

Definition bsig0 (x : Z) : Z :=
  Z.lxor (Z.lxor (rotr 2 x) (rotr 13 x)) (rotr 22 x).

Definition bsig1 (x : Z) : Z :=
  Z.lxor (Z.lxor (rotr 6 x) (rotr 11 x)) (rotr 25 x).

Definition ssig0 (x : Z) : Z :=
  Z.lxor (Z.lxor (rotr 7 x) (rotr 18 x)) (shr 3 x).

Definition ssig1 (x : Z) : Z :=
  Z.lxor (Z.lxor (rotr 17 x) (rotr 19 x)) (shr 10 x).

(** The constants of FIPS 180-4 are given by their definition: the first 32
    bits of the fractional parts of the cube roots (round constants) and of
    the square roots (initial hash value) of the first primes. *)
Definition is_prime (n : nat) : bool :=
  forallb (λ d, negb (n mod d =? 0)%nat) (seq 2 (n - 2)).

Definition primes : list Z :=
  Z.of_nat <$> take 64 (List.filter is_prime (seq 2 310)).

(** The largest [r' >= r] with [r' ^ k <= n], searched over the [i] low
    bits. *)
Fixpoint root_bits (k n : Z) (i : nat) (r : Z) : Z :=
  match i with
  | O => r
  | S i' =>
      let r' := r + 2 ^ Z.of_nat i' in
      root_bits k n i' (if r' ^ k <=? n then r' else r)
  end.

(** The integer part of the [k]-th root of [n], for [n < 2 ^ 128]. *)
Definition iroot (k n : Z) : Z := root_bits k n 64 0.

Definition fractional_root (k p : Z) : Z := iroot k (p * 2 ^ (32 * k)) mod wmod.

Definition K : list Z := fractional_root 3 <$> primes.

(** The eight working words a..h, also the shape of a hash value. *)
Record words8 : Type := W8
  { wa : Z; wb : Z; wc : Z; wd : Z; we : Z; wf : Z; wg : Z; wh : Z }.

Definition H0 : words8 :=
  match fractional_root 2 <$> take 8 primes with
  | [a; b; c; d; e; f; g; h] => W8 a b c d e f g h
  | _ => W8 0 0 0 0 0 0 0 0
  end.

(** Padding: a 1 bit, zero bits up to 56 mod 64 bytes, then the bit length
    as a 64-bit big-endian integer. *)
Fixpoint be_bytes (n : nat) (x : Z) : list Z :=
  match n with
  | O => []
  | S n' => (x / 256 ^ Z.of_nat n') mod 256 :: be_bytes n' x
  end.

Definition pad (msg : list Z) : list Z :=
  let len := Z.of_nat (length msg) in
  let zeros := Z.to_nat ((55 - len) mod 64) in
  msg ++ [0x80] ++ replicate zeros 0 ++ be_bytes 8 (8 * len).

Definition be_word (b3 b2 b1 b0 : Z) : Z :=
  ((b3 * 256 + b2) * 256 + b1) * 256 + b0.

Fixpoint to_words (bs : list Z) : list Z :=
  match bs with
  | b3 :: b2 :: b1 :: b0 :: rest => be_word b3 b2 b1 b0 :: to_words rest
  | _ => []
  end.

Fixpoint blocks (n : nat) (ws : list Z) : list (list Z) :=
  match n with
  | O => []
  | S n' => take 16 ws :: blocks n' (drop 16 ws)
  end.

(** Message schedule; [rev_w] holds W(t-1), W(t-2), ... with the newest
    word first. *)
Definition next_w (rev_w : list Z) : Z :=
  add32 (add32 (ssig1 (nth 1 rev_w 0)) (nth 6 rev_w 0))
        (add32 (ssig0 (nth 14 rev_w 0)) (nth 15 rev_w 0)).

Fixpoint extend (n : nat) (rev_w : list Z) : list Z :=
  match n with
  | O => rev_w
  | S n' => extend n' (next_w rev_w :: rev_w)
  end.

Definition schedule (block : list Z) : list Z :=
  rev (extend 48 (rev block)).

Definition round (s : words8) (kw : Z * Z) : words8 :=
  let '(W8 a b c d e f g h) := s in
  let t1 := add32 (add32 (add32 h (bsig1 e)) (add32 (Ch e f g) (fst kw)))
                  (snd kw) in
  let t2 := add32 (bsig0 a) (Maj a b c) in
  W8 (add32 t1 t2) a b c (add32 d t1) e f g.

Definition add8 (x y : words8) : words8 :=
  W8 (add32 (wa x) (wa y)) (add32 (wb x) (wb y))
     (add32 (wc x) (wc y)) (add32 (wd x) (wd y))
     (add32 (we x) (we y)) (add32 (wf x) (wf y))
     (add32 (wg x) (wg y)) (add32 (wh x) (wh y)).

Definition compress (h : words8) (block : list Z) : words8 :=
  add8 h (fold_left round (combine K (schedule block)) h).

Definition digest_words (msg : list Z) : words8 :=
  let ws := to_words (pad msg) in
  fold_left compress (blocks (length ws / 16) ws) H0.

(** Lower-case hexadecimal rendering, as [hexdigest] prints it. *)
Definition hex_digit (d : Z) : ascii :=
  nth (Z.to_nat (d mod 16))
      (list_ascii_of_string "0123456789abcdef") "0"%char.

Fixpoint hex_of (n : nat) (x : Z) : string :=
  match n with
  | O => EmptyString
  | S n' => String (hex_digit (x / 16 ^ Z.of_nat n')) (hex_of n' x)
  end.

Definition hex8 (s : words8) : string :=
  hex_of 8 (wa s) +:+ hex_of 8 (wb s) +:+ hex_of 8 (wc s) +:+
  hex_of 8 (wd s) +:+ hex_of 8 (we s) +:+ hex_of 8 (wf s) +:+
  hex_of 8 (wg s) +:+ hex_of 8 (wh s).

Definition byte_val (b : byte) : Z := Z.of_N (Byte.to_N b).

Definition hexdigest (data : list byte) : string :=
  hex8 (digest_words (byte_val <$> data)).

End Sha256.

(** ** The Python operations the program uses *)

Module Py.

(** A call either returns or raises; [msg] is [str(e)]. *)
Inductive outcome (A : Type) : Type :=
| Ret (a : A)
| Raise (msg : string).
Arguments Ret {A} a.
Arguments Raise {A} msg.

(** [str(n)] for an integer. *)
Definition str_int (z : Z) : string := NilZero.string_of_int (Z.to_int z).

(** [c in s] for a character. *)
Definition contains (c : ascii) (s : string) : bool :=
  existsb (Ascii.eqb c) (list_ascii_of_string s).

(** The double quote. *)
Definition dquote : ascii := "034"%char.

(** [c.isprintable()] for a code point below 256: the controls, the
    no-break space (160) and the soft hyphen (173) are not printable. *)
Definition isprintable (c : ascii) : bool :=
  let n := N_of_ascii c in
  ((32 <=? n) && (n <? 127) || (161 <=? n) && negb (n =? 173))%N.

Definition hex_char (d : N) : ascii :=
  ascii_of_N (if (d <? 10)%N then 48 + d else 87 + d)%N.

(** What [repr] writes for one character of a string quoted with
    [quote]. *)
Definition repr_char (quote c : ascii) : string :=
  if Ascii.eqb c quote || Ascii.eqb c "\"%char then String "\" (String c "")
  else if Ascii.eqb c "009"%char then "\t"
  else if Ascii.eqb c "010"%char then "\n"
  else if Ascii.eqb c "013"%char then "\r"
  else if isprintable c then String c ""
  else let n := N_of_ascii c in
       String "\" (String "x" (String (hex_char (n / 16)%N)
                                  (String (hex_char (n mod 16)%N) ""))).

Fixpoint repr_chars (quote : ascii) (s : string) : string :=
  match s with
  | EmptyString => EmptyString
  | String c rest => repr_char quote c +:+ repr_chars quote rest
  end.

(** [repr(s)] for a string: between apostrophes, or between double quotes
    when the string holds an apostrophe and no double quote; the quote
    used, the backslash and the characters that are not printable are
    escaped. It is what [str(e)] shows of the key of a [KeyError] and of
    the file name of an [OSError]. *)
Definition repr (s : string) : string :=
  let quote :=
    if contains "'" s && negb (contains dquote s) then dquote else "'"%char in
  String quote (repr_chars quote s +:+ String quote "").

(** [int(x)] for a float: truncation towards zero. *)
Definition int_of_float (x : Q) : Z := Z.quot (Qnum x) (Z.pos (Qden x)).

(** [a / b] on two integers: true division, [ZeroDivisionError] on a zero
    divisor. *)
Definition div_int (a b : Z) : outcome Q :=
  if b =? 0 then Raise "division by zero"
  else Ret (inject_Z a / inject_Z b)%Q.

(** [a / b] with a float divisor. *)
Definition div_float (a b : Q) : outcome Q :=
  if Qeq_bool b 0 then Raise "float division by zero" else Ret (a / b)%Q.

(** Rounding to the nearest integer, ties to even, as [round] and the
    [f] format do. *)
Definition round_half_even (x : Q) : Z :=
  let n := Qfloor x in
  let r := (x - inject_Z n)%Q in
  match (r ?= 1 # 2)%Q with
  | Lt => n
  | Gt => n + 1
  | Eq => if Z.even n then n else n + 1
  end.

(** [round(x, 2)]. *)
Definition round2 (x : Q) : Q := (round_half_even (x * 100) # 100)%Q.

(** [f"{n:,}"]: decimal digits in groups of three. *)
Fixpoint commas_rev (ds : list ascii) (k : nat) : list ascii :=
  match ds with
  | [] => []
  | d :: rest =>
      match k, rest with
      | 2%nat, _ :: _ => d :: ","%char :: commas_rev rest 0
      | _, _ => d :: commas_rev rest (S k)
      end
  end.

Definition format_commas (z : Z) : string :=
  let digits := list_ascii_of_string (str_int (Z.abs z)) in
  let grouped := string_of_list_ascii (rev (commas_rev (rev digits) 0)) in
  if z <? 0 then "-" +:+ grouped else grouped.

(** [f"{x:.2f}"]. *)
Definition format_2f (x : Q) : string :=
  let n := round_half_even (Qabs x * 100) in
  let cents := n mod 100 in
  let frac := if cents <? 10 then "0" +:+ str_int cents else str_int cents in
  let body := str_int (n / 100) +:+ "." +:+ frac in
  if Qlt_le_dec x 0 then "-" +:+ body else body.

(** [range(start, stop, step)] for a positive step. *)
Definition range (start stop step : nat) : list nat :=
  (λ k, start + k * step)%nat <$> seq 0 ((stop - start + step - 1) / step)%nat.

(** The slice [s[i:j]] for [0 <= i <= j]. *)
Definition slice (s : string) (i j : nat) : string := substring i (j - i) s.

(** [s.rsplit('.', 1)]: the text before and after the last dot, or [None]
    when there is no dot. *)
Fixpoint rsplit_dot (s : string) : option (string * string) :=
  match s with
  | EmptyString => None
  | String c rest =>
      match rsplit_dot rest with
      | Some (before, after) => Some (String c before, after)
      | None => if Ascii.eqb c "."%char then Some (EmptyString, rest) else None
      end
  end.

(** The values a pymediainfo track attribute can hold. A float is known by
    its truth value and by the text [str] prints for it. *)
Inductive value : Type :=
| VNone
| VInt (z : Z)
| VFloat (nonzero : bool) (shown : string)
| VStr (s : string).

Definition truthy (v : value) : bool :=
  match v with
  | VNone => false
  | VInt z => negb (z =? 0)
  | VFloat nz _ => nz
  | VStr s => negb (String.eqb s "")
  end.

(** [a or b]. *)
Definition or_ (a b : value) : value := if truthy a then a else b.

(** [str(v)], as an f-string interpolates it. *)
Definition str (v : value) : string :=
  match v with
  | VNone => "None"
  | VInt z => str_int z
  | VFloat _ shown => shown
  | VStr s => s
  end.

End Py.

Import Py.

(** ** Data model *)

(** A track as pymediainfo exposes it: an attribute that the container does
    not carry reads as [None]. *)
Record track : Type := Track
  { t_track_type : string;
    t_codec : value; t_duration : value; t_width : value; t_height : value;
    t_frame_rate : value; t_bit_rate : value; t_color_space : value;
    t_scan_type : value; t_sampling_rate : value; t_channel_s : value }.

(** The dictionary stored under ['video']. *)
Record video_block : Type := VideoBlock
  { video_codec : value; video_duration : string; video_width : string;
    video_height : string; video_frame_rate : string; video_bit_rate : string;
    video_color_space : value; video_scan_type : value }.

(** The dictionary stored under ['audio']. *)
Record audio_block : Type := AudioBlock
  { audio_codec : value; audio_sample_rate : string; audio_channels : value;
    audio_bit_rate : string }.

(** The dictionary [calculate_file_hash] builds. *)
Record hash_info : Type := HashInfo
  { algorithm : string; file_size : string; hash : string;
    hash_breakdown : list string }.

(** One entry of [dark_frames] or [bright_frames]. *)
Record frame_entry : Type := FrameEntry { frame : Z; brightness : Q }.

Record frame_summary : Type := FrameSummary
  { dark_count : Z; bright_count : Z; normal_count : Z }.

(** The dictionary [analyze_video_frames] builds. *)
Record frame_analysis : Type := FrameAnalysis
  { total_frames : string; frame_rate : string; duration : string;
    dark_frames : list frame_entry; bright_frames : list frame_entry;
    normal_frames : Z; summary : frame_summary }.

(** What a stage stores under its key of [results]. *)
Inductive rvalue : Type :=
| RError (msg : string)                 (* {'error': msg} *)
| RMetadata (video : option video_block) (audio : option audio_block)
| RHash (h : hash_info)
| RFrames (f : frame_analysis)
| RPreview (p : option string).         (* a base64 string, or None *)

(** One entry of [analysis_progress]. *)
Record progress_record : Type := ProgressRecord
  { status : string; metadata_done : bool; hash_progress : Q;
    frame_progress : Q; results : gmap string rvalue }.

(** A decoded frame, known by the two things the program asks of it: its mean
    pixel value, and the base64 JPEG of its 640x480 resize (or the exception
    the resize or the encoder raises). *)
Record image : Type := Image { mean : Q; preview_jpeg : outcome string }.

(** An opened [cv2.VideoCapture]: the frame count and rate it reports and,
    for a frame position, the frame that [set] followed by [read] decodes
    ([None] when [read] reports failure). *)
Record capture : Type := Capture
  { cap_frame_count : Z; cap_fps : Q; cap_read : Z -> option image }.

(** The libraries around the program. The decoders see the file content, or
    [None] when the path names no file. *)
Record env : Type := Env
  { mediainfo_parse : option (list byte) -> outcome (list track);
    video_capture : option (list byte) -> capture;
    secure_filename : string -> string;
    str_lower : string -> string;
    file_save : string -> outcome unit }.

(** The mutable world: the upload folder, the global [analysis_progress],
    and a log of every write to a record (the key and the record as
    written), oldest first. The log is not program state; it is what the
    statements about successive writes are read from. *)
Record state : Type := State
  { files : gmap string (list byte);
    analysis_progress : gmap string progress_record;
    writes : list (string * progress_record) }.

(** ** Computations *)

Definition M (A : Type) : Type := state -> outcome A * state.

Global Instance M_ret : MRet M := λ A a σ, (Ret a, σ).

Global Instance M_bind : MBind M := λ A B k m σ,
  match m σ with
  | (Ret a, σ') => k a σ'
  | (Raise e, σ') => (Raise e, σ')
  end.

(** [try: m except Exception as e: h(str(e))]; what [m] wrote stays. *)
Definition try_except {A} (m : M A) (h : string -> M A) : M A := λ σ,
  match m σ with
  | (Ret a, σ') => (Ret a, σ')
  | (Raise e, σ') => h e σ'
  end.

Definition lift {A} (o : outcome A) : M A := λ σ, (o, σ).

Definition get_files : M (gmap string (list byte)) := λ σ, (Ret (files σ), σ).

(** [analysis_progress[file_id] = r]. *)
Definition bind_record (file_id : string) (r : progress_record) : M unit := λ σ,
  (Ret tt,
   State (files σ) (<[file_id := r]> (analysis_progress σ))
         (writes σ ++ [(file_id, r)])).

(** [analysis_progress[file_id]]; a missing key raises [KeyError], whose
    text is the [repr] of the key. *)
Definition get_record (file_id : string) : M progress_record := λ σ,
  match analysis_progress σ !! file_id with
  | Some r => (Ret r, σ)
  | None => (Raise (repr file_id), σ)
  end.

(** [analysis_progress[file_id][field] = ...], with [f] the field update. *)
Definition set_item (file_id : string)
    (f : progress_record -> progress_record) : M unit :=
  r ← get_record file_id; bind_record file_id (f r).

Definition set_status (s : string) (r : progress_record) : progress_record :=
  ProgressRecord s (metadata_done r) (hash_progress r) (frame_progress r)
                 (results r).

Definition set_metadata_done (b : bool) (r : progress_record) : progress_record :=
  ProgressRecord (status r) b (hash_progress r) (frame_progress r) (results r).

Definition set_hash_progress (p : Q) (r : progress_record) : progress_record :=
  ProgressRecord (status r) (metadata_done r) p (frame_progress r) (results r).

Definition set_frame_progress (p : Q) (r : progress_record) : progress_record :=
  ProgressRecord (status r) (metadata_done r) (hash_progress r) p (results r).

(** [record['results'][key] = v]. *)
Definition set_result (key : string) (v : rvalue) (r : progress_record)
    : progress_record :=
  ProgressRecord (status r) (metadata_done r) (hash_progress r)
                 (frame_progress r) (<[key := v]> (results r)).

(** ** The analysis stages *)

Definition ALLOWED_EXTENSIONS : list string :=
  ["mp4"; "avi"; "mov"; "mkv"; "wmv"; "flv"; "webm"]%string.

Definition allowed_file (E : env) (filename : string) : bool :=
  match rsplit_dot filename with
  | Some (_, ext) => bool_decide (str_lower E ext ∈ ALLOWED_EXTENSIONS)
  | None => false
  end.

Definition NA : value := VStr "N/A".

Definition video_of_track (t : track) : video_block :=
  {| video_codec := or_ (t_codec t) NA;
     video_duration := str (or_ (t_duration t) NA) +:+ " ms";
     video_width := str (or_ (t_width t) NA) +:+ " px";
     video_height := str (or_ (t_height t) NA) +:+ " px";
     video_frame_rate := str (or_ (t_frame_rate t) NA) +:+ " fps";
     video_bit_rate := str (or_ (t_bit_rate t) NA) +:+ " bps";
     video_color_space := or_ (t_color_space t) NA;
     video_scan_type := or_ (t_scan_type t) NA |}.

Definition audio_of_track (t : track) : audio_block :=
  {| audio_codec := or_ (t_codec t) NA;
     audio_sample_rate := str (or_ (t_sampling_rate t) NA) +:+ " Hz";
     audio_channels := or_ (t_channel_s t) NA;
     audio_bit_rate := str (or_ (t_bit_rate t) NA) +:+ " bps" |}.

(** The body of the loop over [media_info.tracks]; [data] is the dictionary
    under construction, as its two possible keys. *)
Definition add_track (data : option video_block * option audio_block)
    (t : track) : option video_block * option audio_block :=
  if String.eqb (t_track_type t) "Video" then (Some (video_of_track t), data.2)
  else if String.eqb (t_track_type t) "Audio" then (data.1, Some (audio_of_track t))
  else data.

Definition extract_metadata (E : env) (video_path : string) : M rvalue :=
  try_except
    (fs ← get_files;
     tracks ← lift (mediainfo_parse E (fs !! video_path));
     let data := foldl add_track (None, None) tracks in
     mret (match data with
           | (None, None) => RError "No metadata available"
           | (v, a) => RMetadata v a
           end))
    (λ e, mret (RError ("Error extracting metadata: " +:+ e))).

(** [str(e)] of the [FileNotFoundError] the operating system raises. *)
Definition no_such_file (path : string) : string :=
  "[Errno 2] No such file or directory: " +:+ repr path.

(** [os.path.getsize(path)] and [open(path, "rb")]. *)
Definition read_file (path : string) : M (list byte) :=
  fs ← get_files;
  match fs !! path with
  | Some content => mret content
  | None => lift (Raise (no_such_file path))
  end.

Definition getsize (path : string) : M Z :=
  content ← read_file path; mret (Z.of_nat (length content)).

(** The [while chunk := f.read(size)] loop. [f] is what is left to read of
    the file and [hash_func] the bytes fed to the hash object so far. *)
Equations hash_loop (size : nat) (file_id : string) (file_size : Z)
    (f : list byte) (hash_func : list byte) (processed : Z) (σ : state)
    : outcome (list byte) * state by wf (length f) lt :=
  hash_loop size file_id file_size f hash_func processed σ
    with inspect (take size f) := {
    | exist _ [] _ => (Ret hash_func, σ)
    | exist _ (b :: bs) Hchunk =>
        let chunk := b :: bs in
        let hash_func' := hash_func ++ chunk in
        let processed' := processed + Z.of_nat (length chunk) in
        (q ← lift (Py.div_int processed' file_size);
         let progress := (q * 100)%Q in
         _ ← set_item file_id (set_hash_progress progress);
         ((λ σ', hash_loop size file_id file_size (drop size f) hash_func'
                           processed' σ') : M (list byte)))
        σ }.
Next Obligation.
  destruct f as [|x f]; [by rewrite take_nil in Hchunk|].
  destruct size as [|n]; [discriminate|].
  rewrite length_drop. cbn [length]. lia.
Qed.

(** The size of one read: [f.read(8192)]. *)
Definition chunk_size : nat := Z.to_nat 8192.

Definition calculate_file_hash (path file_id : string) : M rvalue :=
  try_except
    (file_size ← getsize path;
     f ← read_file path;
     hash_func ← hash_loop chunk_size file_id file_size f [] 0;
     let hash_value := Sha256.hexdigest hash_func in
     mret (RHash
       {| algorithm := "SHA-256";
          file_size := format_commas file_size +:+ " bytes";
          hash := hash_value;
          hash_breakdown :=
            (λ i, slice hash_value i (i + 16)) <$>
              range 0 (String.length hash_value) 16 |}))
    (λ e, mret (RError ("Error calculating hash: " +:+ e))).

(** [a < b] on floats. *)
Definition Qltb (a b : Q) : bool := negb (Qle_bool b a).

(** The [while frame_number < analysis_limit] loop. It returns the two lists
    and the counter as they stand when the loop is left. *)
Equations frame_loop (cap : capture) (file_id : string) (analysis_limit : Z)
    (dark bright : list frame_entry) (normal : Z) (frame_number : Z)
    (σ : state)
    : outcome (list frame_entry * list frame_entry * Z) * state
    by wf (Z.to_nat (analysis_limit - frame_number)) lt :=
  frame_loop cap file_id analysis_limit dark bright normal frame_number σ
    with decide (frame_number < analysis_limit) := {
    | right _ => (Ret (dark, bright, normal), σ)
    | left Hlt with cap_read cap frame_number := {
      | None => (Ret (dark, bright, normal), σ)
      | Some img =>
          let brightness := mean img in
          let entry := FrameEntry frame_number (round2 brightness) in
          let '(dark', bright', normal') :=
            if Qltb brightness 30 then (dark ++ [entry], bright, normal)
            else if Qltb 200 brightness then (dark, bright ++ [entry], normal)
            else (dark, bright, normal + 1) in
          let frame_number' := frame_number + 10 in
          (q ← lift (Py.div_int frame_number' analysis_limit);
           let progress := (q * 100)%Q in
           _ ← set_item file_id (set_frame_progress progress);
           ((λ σ', frame_loop cap file_id analysis_limit dark' bright' normal'
                              frame_number' σ')
            : M (list frame_entry * list frame_entry * Z)))
          σ } }.
Next Obligation. lia. Qed.

Definition analyze_video_frames (E : env) (video_path file_id : string)
    : M rvalue :=
  try_except
    (fs ← get_files;
     let cap := video_capture E (fs !! video_path) in
     let frame_count := cap_frame_count cap in
     let fps := cap_fps cap in
     let analysis_limit := Z.min frame_count 1000 in
     '(dark, bright, normal) ←
        (frame_loop cap file_id analysis_limit [] [] 0 0
         : M (list frame_entry * list frame_entry * Z));
     seconds ← lift (Py.div_float (inject_Z frame_count) fps);
     mret (RFrames
       {| total_frames := format_commas frame_count;
          frame_rate := format_2f fps +:+ " fps";
          duration := format_2f seconds +:+ " seconds";
          dark_frames := take 20 dark;
          bright_frames := take 20 bright;
          normal_frames := normal;
          summary :=
            {| dark_count := Z.of_nat (length dark);
               bright_count := Z.of_nat (length bright);
               normal_count := normal |} |}))
    (λ e, mret (RError ("Error analyzing frames: " +:+ e))).

Definition get_video_frame (E : env) (video_path : string) (frame_number : Z)
    : M (option string) :=
  try_except
    (fs ← get_files;
     let cap := video_capture E (fs !! video_path) in
     match cap_read cap frame_number with
     | Some img =>
         frame_base64 ← lift (preview_jpeg img);
         mret (Some frame_base64)
     | None => mret None
     end)
    (λ _, mret None).

(** ** The orchestrator *)

Definition initial_record : progress_record :=
  {| status := "running"; metadata_done := false; hash_progress := 0;
     frame_progress := 0; results := ∅ |}.

(** The four functions [perform_full_analysis] calls, as it finds them in
    the module when it runs. *)
Record stages : Type := Stages
  { call_extract_metadata : string -> M rvalue;
    call_calculate_file_hash : string -> string -> M rvalue;
    call_analyze_video_frames : string -> string -> M rvalue;
    call_get_video_frame : string -> Z -> M (option string) }.

(** The body of the [try] block. *)
Definition pipeline_with (S : stages) (video_path file_id : string) : M unit :=
  _ ← set_item file_id (set_status "Extracting metadata...");
  metadata ← call_extract_metadata S video_path;
  _ ← set_item file_id (set_result "metadata" metadata);
  _ ← set_item file_id (set_metadata_done true);
  _ ← set_item file_id (set_status "Calculating file hash...");
  hash_info ← call_calculate_file_hash S video_path file_id;
  _ ← set_item file_id (set_result "hash" hash_info);
  _ ← set_item file_id (set_status "Analyzing video frames...");
  frame_analysis ← call_analyze_video_frames S video_path file_id;
  _ ← set_item file_id (set_result "frames" frame_analysis);
  first_frame ← call_get_video_frame S video_path 0;
  _ ← set_item file_id (set_result "preview_frame" (RPreview first_frame));
  set_item file_id (set_status "complete").

(** The [except Exception as e] clause. *)
Definition on_error (file_id : string) (e : string) : M unit :=
  set_item file_id (set_status ("error: " +:+ e)).

(** [perform_full_analysis], whatever the four functions it calls do. *)
Definition perform_full_analysis_with (S : stages) (video_path file_id : string)
    : M unit :=
  _ ← bind_record file_id initial_record;
  try_except (pipeline_with S video_path file_id) (on_error file_id).

(** The four functions of the module. *)
Definition stages_of (E : env) : stages :=
  {| call_extract_metadata := extract_metadata E;
     call_calculate_file_hash := calculate_file_hash;
     call_analyze_video_frames := analyze_video_frames E;
     call_get_video_frame := get_video_frame E |}.

Definition pipeline (E : env) (video_path file_id : string) : M unit :=
  pipeline_with (stages_of E) video_path file_id.

Definition perform_full_analysis (E : env) (video_path file_id : string)
    : M unit :=
  perform_full_analysis_with (stages_of E) video_path file_id.

(** ** The routes *)

Inductive body : Type :=
| BError (msg : string)                       (* {'error': msg} *)
| BUploaded (file_id filename : string)       (* {'success': True, ...} *)
| BRecord (r : progress_record)
| BResults (m : gmap string rvalue)
| BNotReady.                                  (* {'status': 'not_ready'} *)

Record response : Type := Response { resp_body : body; resp_code : Z }.

(** The ['file'] part of the multipart request. *)
Record upload : Type := Upload
  { upload_filename : string; upload_content : list byte }.

(** The POST request: the ['file'] part, if there is one, and the number of
    bytes the rest of the body takes (the multipart framing and the other
    parts). *)
Record request : Type := Request
  { request_framing : N; request_file : option upload }.

(** The length of the body: the file is sent as it is. *)
Definition content_length (r : request) : Z :=
  Z.of_N (request_framing r)
  + match request_file r with
    | Some file => Z.of_nat (length (upload_content file))
    | None => 0
    end.

(** [app.config['MAX_CONTENT_LENGTH']]. *)
Definition MAX_CONTENT_LENGTH : Z := 500 * 1024 * 1024.

(** [str(e)] for the [RequestEntityTooLarge] of werkzeug, which Flask
    answers with the code 413. *)
Definition RequestEntityTooLarge : string :=
  "413 Request Entity Too Large: The data value transmitted exceeds the capacity limit.".

(** [request.files]: the first access parses the body, and raises for a
    body longer than [MAX_CONTENT_LENGTH]. Of the parts only ['file'] is
    kept. *)
Definition request_files (r : request) : outcome (option upload) :=
  if MAX_CONTENT_LENGTH <? content_length r then Raise RequestEntityTooLarge
  else Ret (request_file r).

(** Writing [content] at [filepath] of the upload folder. *)
Definition write_file (filepath : string) (content : list byte) : M unit := λ σ,
  (Ret tt,
   State (<[filepath := content]> (files σ)) (analysis_progress σ) (writes σ)).

(** [file.save(filepath)]. *)
Definition save (E : env) (filepath : string) (content : list byte) : M unit :=
  _ ← lift (file_save E filepath); write_file filepath content.

(** [upload_file] answers the request and, when it accepts the file, starts a
    thread on [perform_full_analysis]; the second component is that thread's
    arguments. [now] is what [time.time()] reads. The access to
    [request.files] is outside every [try]: what it raises leaves the
    function. *)
Definition upload_file (E : env) (req : request) (now : Q)
    : M (response * option (string * string)) :=
  parts ← lift (request_files req);
  match parts with
  | None => mret (Response (BError "No file uploaded") 400, None)
  | Some file =>
      if String.eqb (upload_filename file) "" then
        mret (Response (BError "No file selected") 400, None)
      else if allowed_file E (upload_filename file) then
        let filename := secure_filename E (upload_filename file) in
        let timestamp := str_int (int_of_float now) in
        let filename := timestamp +:+ "_" +:+ filename in
        let filepath := "uploads/" +:+ filename in
        try_except
          (_ ← save E filepath (upload_content file);
           let file_id := timestamp in
           mret (Response (BUploaded file_id (upload_filename file)) 200,
                 Some (filepath, file_id)))
          (λ e, mret (Response (BError ("Failed to save file: " +:+ e)) 500,
                      None))
      else mret (Response (BError "Invalid file type") 400, None)
  end.

Definition get_progress (file_id : string) : M response := λ σ,
  match analysis_progress σ !! file_id with
  | None => (Ret (Response (BError "File not found") 404), σ)
  | Some r => (Ret (Response (BRecord r) 200), σ)
  end.

Definition get_results (file_id : string) : M response := λ σ,
  match analysis_progress σ !! file_id with
  | None => (Ret (Response (BError "File not found") 404), σ)
  | Some r =>
      if String.eqb (status r) "complete"
      then (Ret (Response (BResults (results r)) 200), σ)
      else (Ret (Response BNotReady 200), σ)
  end.

(** The schedule in which the thread an upload starts runs to its end before
    anything else happens. *)
Definition upload_and_analyze (E : env) (req : request) (now : Q)
    : M response :=
  '(resp, thread) ← upload_file E req now;
  _ ← match thread with
      | Some (filepath, file_id) => perform_full_analysis E filepath file_id
      | None => mret tt
      end;
  mret resp.

(** ** Definitions for the statements *)

(** *** Writes and what the stages return *)

(** The state after the records [rs] were written, in this order, under
    [file_id]. *)
Definition after_writes (file_id : string) (σ : state)
    (rs : list progress_record) : state :=
  State (files σ)
        (match last rs with
         | Some r => <[file_id := r]> (analysis_progress σ)
         | None => analysis_progress σ
         end)
        (writes σ ++ ((λ r, (file_id, r)) <$> rs)).

(** The percentage both loops write: [k / total * 100]. *)
Definition pct (total k : Z) : Q := (inject_Z k / inject_Z total * 100)%Q.

(** The value [extract_metadata] returns, from what [MediaInfo.parse]
    gives. *)
Definition metadata_result (parsed : outcome (list track)) : rvalue :=
  match parsed with
  | Ret tracks =>
      match foldl add_track (None, None) tracks with
      | (None, None) => RError "No metadata available"
      | (v, a) => RMetadata v a
      end
  | Raise e => RError ("Error extracting metadata: " +:+ e)
  end.

(** A track that is neither a video nor an audio track. *)
Definition other_track (t : track) : Prop :=
  t_track_type t ≠ "Video"%string ∧ t_track_type t ≠ "Audio"%string.

(** The value [calculate_file_hash] returns, from the content found at the
    path. *)
Definition hash_result (path : string) (found : option (list byte)) : rvalue :=
  match found with
  | Some content =>
      let hash_value := Sha256.hexdigest content in
      RHash {| algorithm := "SHA-256";
               file_size := format_commas (Z.of_nat (length content)) +:+ " bytes";
               hash := hash_value;
               hash_breakdown :=
                 (λ i, slice hash_value i (i + 16)) <$>
                   range 0 (String.length hash_value) 16 |}
  | None => RError ("Error calculating hash: " +:+ no_such_file path)
  end.

(** The size of the file found at a path, 0 when there is none. *)
Definition size_of (found : option (list byte)) : Z :=
  Z.of_nat (length (default [] found)).

(** The hash result of a zero-byte file. *)
Definition empty_hash_info : hash_info :=
  {| algorithm := "SHA-256";
     file_size := "0 bytes";
     hash := "e3b0c44298fc1c149afbf4c8996fb92427ae41e4649b934ca495991b7852b855";
     hash_breakdown :=
       ["e3b0c44298fc1c14"; "9afbf4c8996fb924";
        "27ae41e4649b934c"; "a495991b7852b855"]%string |}.

(** [''.join(parts)]. *)
Definition join (parts : list string) : string := foldr String.append "" parts.

(** The digest a hash result carries. *)
Definition digest_of (v : rvalue) : option string :=
  match v with
  | RHash h => Some (hash h)
  | _ => None
  end.

(** The digest stored in a record, if the hash stage stored one. *)
Definition record_digest (r : progress_record) : option string :=
  results r !! "hash" ≫= digest_of.

(** The value [get_video_frame] returns. *)
Definition preview_result (cap : capture) (frame_number : Z) : option string :=
  match cap_read cap frame_number with
  | Some img =>
      match preview_jpeg img with
      | Ret frame_base64 => Some frame_base64
      | Raise _ => None
      end
  | None => None
  end.

(** *** The frame sampler, in the words of its specification *)

Definition analysis_limit_of (cap : capture) : Z :=
  Z.min (cap_frame_count cap) 1000.

(** The cursor values [start], [start + 10], ... below [limit]. *)
Definition sample_points (start limit : Z) : list Z :=
  (λ k, start + 10 * Z.of_nat k) <$> seq 0 (Z.to_nat ((limit - start + 9) / 10)).

(** The frames decoded at these positions, up to the first position where
    decoding fails: the position and the mean brightness. *)
Fixpoint decode_prefix (cap : capture) (points : list Z) : list (Z * Q) :=
  match points with
  | [] => []
  | n :: rest =>
      match cap_read cap n with
      | Some img => (n, mean img) :: decode_prefix cap rest
      | None => []
      end
  end.

Definition sampled (cap : capture) (start limit : Z) : list (Z * Q) :=
  decode_prefix cap (sample_points start limit).

(** The three classes of a sampled frame. *)
Definition is_dark (s : Z * Q) : bool := Qltb s.2 30.
Definition is_bright (s : Z * Q) : bool := Qltb 200 s.2.
Definition is_normal (s : Z * Q) : bool := negb (is_dark s) && negb (is_bright s).

(** The entry listed for a dark or a bright frame. *)
Definition entry_of (s : Z * Q) : frame_entry := FrameEntry s.1 (round2 s.2).

(** The value [analyze_video_frames] returns, from the capture and the
    frames it sampled. *)
Definition frames_result (cap : capture) (samples : list (Z * Q)) : rvalue :=
  let dark := entry_of <$> filter is_dark samples in
  let bright := entry_of <$> filter is_bright samples in
  let normal := Z.of_nat (length (filter is_normal samples)) in
  match Py.div_float (inject_Z (cap_frame_count cap)) (cap_fps cap) with
  | Ret seconds =>
      RFrames
        {| total_frames := format_commas (cap_frame_count cap);
           frame_rate := format_2f (cap_fps cap) +:+ " fps";
           duration := format_2f seconds +:+ " seconds";
           dark_frames := take 20 dark;
           bright_frames := take 20 bright;
           normal_frames := normal;
           summary :=
             {| dark_count := Z.of_nat (length dark);
                bright_count := Z.of_nat (length bright);
                normal_count := normal |} |}
  | Raise e => RError ("Error analyzing frames: " +:+ e)
  end.

(** *** Runs of the orchestrator *)

(** The records a run writes, in order: [md], [h], [fr] and [pv] are what the
    four stages return, [hps] and [fps] the percentages the hash loop and
    the frame loop write. *)
Definition run_trace (md h : rvalue) (hps : list Q) (fr : rvalue)
    (fps : list Q) (pv : option string) : list progress_record :=
  let r0 := initial_record in
  let r1 := set_status "Extracting metadata..." r0 in
  let r2 := set_result "metadata" md r1 in
  let r3 := set_metadata_done true r2 in
  let r4 := set_status "Calculating file hash..." r3 in
  let hw := (λ p, set_hash_progress p r4) <$> hps in
  let r5 := set_result "hash" h (default r4 (last hw)) in
  let r6 := set_status "Analyzing video frames..." r5 in
  let fw := (λ p, set_frame_progress p r6) <$> fps in
  let r7 := set_result "frames" fr (default r6 (last fw)) in
  let r8 := set_result "preview_frame" (RPreview pv) r7 in
  let r9 := set_status "complete" r8 in
  [r0; r1; r2; r3; r4] ++ hw ++ [r5; r6] ++ fw ++ [r7; r8; r9].

(** The record a run leaves under its key. *)
Definition final_record (md h : rvalue) (hps : list Q) (fr : rvalue)
    (fps : list Q) (pv : option string) : progress_record :=
  {| status := "complete";
     metadata_done := true;
     hash_progress := default 0%Q (last hps);
     frame_progress := default 0%Q (last fps);
     results :=
       <["preview_frame" := RPreview pv]>
         (<["frames" := fr]> (<["hash" := h]> (<["metadata" := md]> ∅))) |}.

(** [s.startswith(p)]. *)
Fixpoint starts_with (p s : string) : bool :=
  match p, s with
  | EmptyString, _ => true
  | String a p', String b s' => Ascii.eqb a b && starts_with p' s'
  | String _ _, EmptyString => false
  end.

(** The statuses after which a record is final: ['error: ...'] and
    ['complete']. *)
Definition is_error (s : string) : bool := starts_with "error: " s.

Definition is_terminal (s : string) : bool := String.eqb s "complete" || is_error s.

(** What the specification asks of a run whose file cannot be read: an error
    status, and no result stored by the hash stage or by the stages after
    it. *)
Definition aborts_on_hash_failure (E : env) (path file_id : string) (σ : state)
    : Prop :=
  files σ !! path = None ->
  ∃ r, analysis_progress (perform_full_analysis E path file_id σ).2 !! file_id
         = Some r
       ∧ is_error (status r) = true
       ∧ results r !! "hash" = None
       ∧ results r !! "frames" = None
       ∧ results r !! "preview_frame" = None.

(** What the specification asks of the log of writes: after a write that
    carries a final status, every later write under the same key carries
    the same record. *)
Definition terminal_is_final (log : list (string * progress_record)) : Prop :=
  ∀ (i j : nat) id r r',
    (i < j)%nat ->
    log !! i = Some (id, r) -> is_terminal (status r) = true ->
    log !! j = Some (id, r') -> r' = r.

(** *** Uploads *)

(** The path under which [upload_file] saves an upload received at [now]. *)
Definition filepath_of (E : env) (file : upload) (now : Q) : string :=
  "uploads/" +:+ (str_int (int_of_float now) +:+ "_" +:+
                  secure_filename E (upload_filename file)).

(** A request that [upload_file] accepts, and the file it saves: the body is
    within the limit and carries [file]. *)
Definition accepted (E : env) (req : request) (file : upload) (now : Q) : Prop :=
  request_files req = Ret (Some file)
  ∧ upload_filename file ≠ ""%string
  ∧ allowed_file E (upload_filename file) = true
  ∧ file_save E (filepath_of E file now) = Ret tt.

(** *** What happens to the store over time *)

(** A request to one of the three routes, or a run of the analysis taken
    from its first write to its last. *)
Inductive event : Type :=
| EUpload (req : request) (now : Q)
| ERun (video_path file_id : string)
| EProgress (file_id : string)
| EResults (file_id : string).

Definition step (E : env) (ev : event) (σ : state) : state :=
  match ev with
  | EUpload req now => (upload_file E req now σ).2
  | ERun video_path file_id => (perform_full_analysis E video_path file_id σ).2
  | EProgress file_id => (get_progress file_id σ).2
  | EResults file_id => (get_results file_id σ).2
  end.

Definition run_events (E : env) (evs : list event) (σ : state) : state :=
  foldl (λ σ' ev, step E ev σ') σ evs.

(** The event is a run of the analysis under [file_id]. *)
Definition runs_on (file_id : string) (ev : event) : Prop :=
  match ev with
  | ERun _ id => id = file_id
  | _ => False
  end.

(** *** Concrete inputs *)

Definition sample_image (m : Q) : image := Image m (Ret "/9j/4AAQSkZJRg==").

(** A video of five frames of mean brightness 100. *)
Definition five_frames : capture :=
  Capture 5 30
    (λ n, if (0 <=? n) && (n <? 5) then Some (sample_image 100) else None).

(** A video of 300 frames, all of mean brightness 10. *)
Definition dark_video : capture :=
  Capture 300 25
    (λ n, if (0 <=? n) && (n <? 300) then Some (sample_image 10) else None).

(** What OpenCV gives for a path it cannot open. *)
Definition unopened : capture := Capture 0 0 (λ _, None).

Definition sample_video_track : track :=
  Track "Video" (VStr "AVC") (VInt 167) VNone (VInt 480) (VFloat true "30.000")
        VNone (VStr "YUV") VNone VNone VNone.

(** A video track that carries none of the attributes read from it. *)
Definition bare_video_track : track :=
  Track "Video" VNone VNone VNone VNone VNone VNone VNone VNone VNone VNone.

(** The track pymediainfo reports for the container itself. *)
Definition general_track : track :=
  Track "General" VNone (VInt 167) VNone VNone VNone VNone VNone VNone VNone
        VNone.

(** Libraries that find one video track and five frames in every file there
    is, and fail on a path that names no file. *)
Definition sample_env : env :=
  {| mediainfo_parse := λ found,
       match found with
       | Some _ => Ret [sample_video_track]
       | None => Raise "file not found"
       end;
     video_capture := λ found,
       match found with Some _ => five_frames | None => unopened end;
     secure_filename := λ name, name;
     str_lower := λ ext, ext;
     file_save := λ _, Ret tt |}.

(** The same, with a decoder that reads [dark_video]. *)
Definition dark_env : env :=
  {| mediainfo_parse := mediainfo_parse sample_env;
     video_capture := λ _, dark_video;
     secure_filename := secure_filename sample_env;
     str_lower := str_lower sample_env;
     file_save := file_save sample_env |}.

(** The same, with a parser that finds the container track only. *)
Definition general_env : env :=
  {| mediainfo_parse := λ _, Ret [general_track];
     video_capture := video_capture sample_env;
     secure_filename := secure_filename sample_env;
     str_lower := str_lower sample_env;
     file_save := file_save sample_env |}.

Definition empty_state : state := State ∅ ∅ [].

(** A state with one zero-byte file and a fresh record. *)
Definition empty_file_state : state :=
  State {[ "uploads/1700000000_empty.mp4"%string := [] ]}
        {[ "1700000000"%string := initial_record ]} [].

(** A state with one three-byte file and a fresh record. *)
Definition small_file_state : state :=
  State {[ "uploads/1700000000_clip.mp4"%string := [x61; x62; x63]%byte ]}
        {[ "1700000000"%string := initial_record ]} [].

(** A state whose one record is complete. *)
Definition complete_state : state :=
  State ∅ {[ "1700000000"%string := set_status "complete" initial_record ]} [].

(** The request that carries [file] and nothing else, with 200 bytes of
    multipart framing. *)
Definition multipart (file : upload) : request := Request 200 (Some file).

(** The functions of [sample_env], with a hash stage that lets an exception
    leave it. *)
Definition leaking_stages : stages :=
  {| call_extract_metadata := extract_metadata sample_env;
     call_calculate_file_hash := λ _ _, lift (Raise "disk failure");
     call_analyze_video_frames := analyze_video_frames sample_env;
     call_get_video_frame := get_video_frame sample_env |}.

(** Two uploads received within the same second. *)
Definition first_upload : upload := Upload "a.mp4" [x61]%byte.
Definition second_upload : upload := Upload "b.mp4" [x62]%byte.
Definition first_time : Q := 17000000002 # 10.
Definition second_time : Q := 17000000007 # 10.

(** An upload with the content of the first, received a second later. *)
Definition third_upload : upload := Upload "c.mp4" [x61]%byte.
Definition third_time : Q := 1700000001 # 1.

(** ** Definitions for the further properties *)

(** ['.' in s]. *)
Fixpoint has_dot (s : string) : bool :=
  match s with
  | EmptyString => false
  | String c rest => Ascii.eqb c "." || has_dot rest
  end.

(** The last track of a type among those parsed. *)
Definition last_of_type (ty : string) (tracks : list track) : option track :=
  last (filter (λ t, t_track_type t = ty) tracks).

(** The order in which a run fills a record: ['metadata'] before
    [metadata_done], that before ['hash'], then ['frames'], then
    ['preview_frame']; a progress field moves only once the stage before its
    own is done. *)
Definition filled_in_order (w : progress_record) : Prop :=
  (metadata_done w = true -> is_Some (results w !! "metadata"))
  ∧ (is_Some (results w !! "hash") -> metadata_done w = true)
  ∧ (is_Some (results w !! "frames") -> is_Some (results w !! "hash"))
  ∧ (is_Some (results w !! "preview_frame") -> is_Some (results w !! "frames"))
  ∧ (metadata_done w = false -> hash_progress w = 0%Q)
  ∧ (results w !! "hash" = None -> frame_progress w = 0%Q)
  ∧ (status w = "complete"%string -> is_Some (results w !! "preview_frame")).

(** A video of 25 frames, mean brightness 250, that reports a zero frame
    rate. *)
Definition no_rate_video : capture :=
  Capture 25 0
    (λ n, if (0 <=? n) && (n <? 25) then Some (sample_image 250) else None).

Definition no_rate_env : env :=
  {| mediainfo_parse := mediainfo_parse sample_env;
     video_capture := λ _, no_rate_video;
     secure_filename := secure_filename sample_env;
     str_lower := str_lower sample_env;
     file_save := file_save sample_env |}.

(** A state with the three-byte file and no record. *)
Definition unregistered_state : state :=
  State {[ "uploads/1700000000_clip.mp4"%string := [x61; x62; x63]%byte ]} ∅ [].

(** The byte counts reached after each read of [size] bytes from a file of
    [n] bytes: [size], [2 * size], ... and at last [n] itself. *)
Definition chunk_ends (size n : Z) : list Z :=
  (λ k, Z.min (size * (Z.of_nat k + 1)) n) <$>
    seq 0 (Z.to_nat ((n + size - 1) / size)).

(** A string of printable characters other than the apostrophe and the
    backslash: [repr] puts it between apostrophes as it is. *)
Fixpoint plain (s : string) : bool :=
  match s with
  | EmptyString => true
  | String c rest =>
      Py.isprintable c && negb (Ascii.eqb c "'") && negb (Ascii.eqb c "\")
      && plain rest
  end.

(** ** Sanity checks of the model *)

Example sha256_round_constants :
  take 4 Sha256.K = [0x428a2f98; 0x71374491; 0xb5c0fbcf; 0xe9b5dba5]
  ∧ last Sha256.K = Some 0xc67178f2
  ∧ length Sha256.K = 64%nat.
Proof. vm_compute. done. Qed.

Example sha256_initial_value :
  Sha256.wa Sha256.H0 = 0x6a09e667 ∧ Sha256.wh Sha256.H0 = 0x5be0cd19.
Proof. vm_compute. done. Qed.

Example sha256_abc :
  Sha256.hexdigest [x61; x62; x63]%byte =
  "ba7816bf8f01cfea414140de5dae2223b00361a396177a9cb410ff61f20015ad"%string.
Proof. vm_compute. reflexivity. Qed.

Example format_commas_ex : format_commas 1234567 = "1,234,567"%string.
Proof. reflexivity. Qed.

Example format_commas_small : format_commas 999 = "999"%string.
Proof. reflexivity. Qed.

Example format_2f_ex : format_2f (2997 # 100) = "29.97"%string.
Proof. reflexivity. Qed.

Example format_2f_round : format_2f (1 # 3) = "0.33"%string.
Proof. reflexivity. Qed.

Example range_ex : range 0 64 16 = [0; 16; 32; 48]%nat.
Proof. reflexivity. Qed.

Example rsplit_ex : rsplit_dot "a.b.MP4" = Some ("a.b", "MP4")%string.
Proof. reflexivity. Qed.

(** A run on a three-byte file whose video has five frames. *)
Example run_small_file :
  let σ := (perform_full_analysis sample_env "uploads/1700000000_clip.mp4"
              "1700000000" small_file_state).2 in
  (status <$> analysis_progress σ !! "1700000000") = Some "complete"%string
  ∧ (record_digest <$> analysis_progress σ !! "1700000000") =
      Some (Some
        "ba7816bf8f01cfea414140de5dae2223b00361a396177a9cb410ff61f20015ad"%string)
  ∧ length (writes σ) = 12%nat.
Proof. vm_compute. done. Qed.

Example repr_digits : Py.repr "1700000000" = "'1700000000'"%string.
Proof. reflexivity. Qed.

Example repr_apostrophe :
  Py.repr "it's" = String Py.dquote ("it's" +:+ String Py.dquote "").
Proof. reflexivity. Qed.

Example repr_both_quotes :
  Py.repr (String "'" (String Py.dquote "")) =
    ("'\'" +:+ String Py.dquote "'")%string.
Proof. reflexivity. Qed.

Example repr_escapes :
  Py.repr (String "\" (String "010" (String "127" (String "233" "")))) =
    ("'\\\n\x7f" +:+ String "233" "'")%string.
Proof. reflexivity. Qed.

(** ** Running the model *)

(** *** Writes *)

Lemma chunk_size_pos : (0 < chunk_size)%nat.
Proof. apply Nat.ltb_lt. vm_compute. reflexivity. Qed.

Lemma after_writes_nil id σ : after_writes id σ [] = σ.
Proof. destruct σ. unfold after_writes. simpl. by rewrite app_nil_r. Qed.

Lemma after_writes_app id σ rs1 rs2 :
  after_writes id (after_writes id σ rs1) rs2 = after_writes id σ (rs1 ++ rs2).
Proof.
  unfold after_writes. simpl. rewrite fmap_app, app_assoc. f_equal.
  destruct rs2 as [|r2 rs2] using rev_ind.
  - by rewrite app_nil_r.
  - rewrite app_assoc, !last_snoc. destruct (last rs1); [|done].
    by rewrite insert_insert_eq.
Qed.

Lemma after_writes_lookup id σ rs r0 :
  analysis_progress σ !! id = Some r0 ->
  analysis_progress (after_writes id σ rs) !! id = Some (default r0 (last rs)).
Proof.
  intros H. unfold after_writes. simpl. destruct (last rs); simpl; [|done].
  by rewrite lookup_insert_eq.
Qed.

Lemma set_item_run id f σ r :
  analysis_progress σ !! id = Some r ->
  set_item id f σ = (Ret tt, after_writes id σ [f r]).
Proof.
  intros H. unfold set_item, mbind, M_bind, get_record, bind_record.
  rewrite H. reflexivity.
Qed.

(** *** The hash loop *)

Lemma div_pos_run (a b : Z) :
  0 < b -> Py.div_int a b = Ret (inject_Z a / inject_Z b)%Q.
Proof.
  intros Hb. unfold Py.div_int. destruct (b =? 0) eqn:E; [lia|done].
Qed.

Lemma hash_loop_run size id fs f hf processed σ r :
  (0 < size)%nat ->
  analysis_progress σ !! id = Some r ->
  0 <= processed -> processed + Z.of_nat (length f) <= fs ->
  ∃ ks, hash_loop size id fs f hf processed σ =
        (Ret (hf ++ f),
         after_writes id σ ((λ k, set_hash_progress (pct fs k) r) <$> ks))
     ∧ StronglySorted Z.lt ks
     ∧ Forall (λ k, processed < k <= processed + Z.of_nat (length f)) ks
     ∧ (f = [] -> ks = [])
     ∧ (f ≠ [] -> last ks = Some (processed + Z.of_nat (length f))).
Proof.
  intros Hsize. revert r.
  funelim (hash_loop size id fs f hf processed σ); intros r Hr Hp Hfs.
  - assert (f = []) as ->.
    { destruct f; [done|]. destruct size; [lia|discriminate]. }
    exists []. rewrite app_nil_r, after_writes_nil. repeat split; try done.
    constructor.
  - clear Heqcall H0.
    match goal with
    | |- context [Py.div_int _ ?z] => rename z into total
    end.
    assert (Hf : f = (b :: bs) ++ drop size f).
    { rewrite <- Hchunk. symmetry. apply take_drop. }
    assert (Hlen : Z.of_nat (length f) =
                   Z.of_nat (length (b :: bs)) + Z.of_nat (length (drop size f))).
    { rewrite Hf at 1. rewrite length_app. lia. }
    set (k1 := processed + Z.of_nat (length (b :: bs))) in *.
    assert (Hk1 : processed < k1) by (subst k1; simpl; lia).
    unfold mbind, M_bind, lift. rewrite div_pos_run by lia.
    rewrite (set_item_run _ _ _ r Hr).
    edestruct (H (inject_Z k1 / inject_Z total)%Q tt
                 (after_writes file_id σ [set_hash_progress (pct total k1) r])
                 Hsize
                 (set_hash_progress (pct total k1) r))
      as (ks & Hrun & Hsorted & Hall & Hnil & Hlast).
    { by rewrite (after_writes_lookup _ _ _ r Hr). }
    { lia. }
    { lia. }
    assert (Hk2 : k1 + Z.of_nat (length (drop size f)) =
                  processed + Z.of_nat (length f)) by (subst k1; lia).
    exists (k1 :: ks). fold (pct total k1). rewrite Hrun.
    clearbody k1. rewrite after_writes_app. repeat split.
    + f_equal. by rewrite <- app_assoc, <- Hf.
    + constructor; [done|]. eapply Forall_impl; [exact Hall|]. simpl. intros; lia.
    + constructor; [lia|]. eapply Forall_impl; [exact Hall|]. simpl. intros; lia.
    + intros ->. by rewrite take_nil in Hchunk.
    + intros _. destruct (decide (drop size f = [])) as [Hd|Hd].
      * rewrite (Hnil Hd). simpl. f_equal. rewrite Hd in Hk2. simpl in Hk2. lia.
      * rewrite last_cons, (Hlast Hd). f_equal. lia.
Qed.

(** *** The frame loop *)

Lemma sample_points_done start limit :
  ¬ start < limit -> sample_points start limit = [].
Proof.
  intros H. unfold sample_points.
  replace (Z.to_nat ((limit - start + 9) / 10)) with 0%nat; [done|].
  assert ((limit - start + 9) / 10 <= 0); [|lia].
  assert ((limit - start + 9) / 10 < 1); [|lia].
  apply Z.div_lt_upper_bound; lia.
Qed.

Lemma sample_points_step start limit :
  start < limit ->
  sample_points start limit = start :: sample_points (start + 10) limit.
Proof.
  intros H. unfold sample_points.
  replace (limit - start + 9) with ((limit - (start + 10) + 9) + 1 * 10) by lia.
  rewrite Z.div_add by lia.
  assert (0 <= (limit - (start + 10) + 9) / 10) by (apply Z.div_pos; lia).
  rewrite Z2Nat.inj_add by lia. rewrite Nat.add_comm. simpl.
  f_equal; [lia|]. rewrite <- fmap_S_seq, <- list_fmap_compose.
  apply list_fmap_ext. intros _ k _. simpl. lia.
Qed.

Lemma dark_not_bright s : is_dark s = true -> is_bright s = false.
Proof.
  unfold is_dark, is_bright, Qltb. rewrite negb_true_iff, negb_false_iff.
  intros H. apply Qle_bool_iff. destruct (Qle_bool 30 s.2) eqn:E; [done|].
  apply Qlt_le_weak. apply Qlt_trans with 30%Q; [|reflexivity].
  apply Qnot_le_lt. intros Hle. apply Qle_bool_iff in Hle. congruence.
Qed.

Lemma sampled_done cap start limit :
  ¬ start < limit -> sampled cap start limit = [].
Proof. intros H. unfold sampled. by rewrite sample_points_done. Qed.

Lemma sampled_stop cap start limit :
  start < limit -> cap_read cap start = None -> sampled cap start limit = [].
Proof.
  intros H Hread. unfold sampled. rewrite sample_points_step by done.
  simpl. by rewrite Hread.
Qed.

Lemma sampled_step cap start limit img :
  start < limit -> cap_read cap start = Some img ->
  sampled cap start limit = (start, mean img) :: sampled cap (start + 10) limit.
Proof.
  intros H Hread. unfold sampled. rewrite sample_points_step by done.
  simpl. by rewrite Hread.
Qed.

Lemma filter_bool_cons {A} (p : A -> bool) (x : A) (l : list A) :
  filter p (x :: l) = if p x then x :: filter p l else filter p l.
Proof.
  rewrite filter_cons. by destruct (p x).
Qed.

Lemma filter_dark s l :
  is_dark s = true ->
  filter is_dark (s :: l) = s :: filter is_dark l
  ∧ filter is_bright (s :: l) = filter is_bright l
  ∧ filter is_normal (s :: l) = filter is_normal l.
Proof.
  intros H. rewrite !filter_bool_cons. unfold is_normal.
  by rewrite (dark_not_bright s H), H.
Qed.

Lemma filter_bright s l :
  is_dark s = false -> is_bright s = true ->
  filter is_dark (s :: l) = filter is_dark l
  ∧ filter is_bright (s :: l) = s :: filter is_bright l
  ∧ filter is_normal (s :: l) = filter is_normal l.
Proof.
  intros H1 H2. rewrite !filter_bool_cons. unfold is_normal.
  by rewrite H1, H2.
Qed.

Lemma filter_normal s l :
  is_dark s = false -> is_bright s = false ->
  filter is_dark (s :: l) = filter is_dark l
  ∧ filter is_bright (s :: l) = filter is_bright l
  ∧ filter is_normal (s :: l) = s :: filter is_normal l.
Proof.
  intros H1 H2. rewrite !filter_bool_cons. unfold is_normal.
  by rewrite H1, H2.
Qed.

Lemma frame_loop_run cap id limit dark bright normal fn σ r :
  analysis_progress σ !! id = Some r -> 0 <= fn ->
  let samples := sampled cap fn limit in
  frame_loop cap id limit dark bright normal fn σ =
    (Ret (dark ++ (entry_of <$> filter is_dark samples),
          bright ++ (entry_of <$> filter is_bright samples),
          normal + Z.of_nat (length (filter is_normal samples))),
     after_writes id σ
       ((λ s, set_frame_progress (pct limit (s.1 + 10)) r) <$> samples)).
Proof.
  revert r.
  funelim (frame_loop cap id limit dark bright normal fn σ); intros r Hr Hfn.
  - rewrite sampled_done by done. simpl.
    by rewrite !app_nil_r, Z.add_0_r, after_writes_nil.
  - clear Heqcall. rewrite (sampled_step _ _ _ img) by done.
    assert (Hnext : analysis_progress
              (after_writes file_id σ
                 [set_frame_progress (pct analysis_limit (frame_number + 10)) r])
              !! file_id =
            Some (set_frame_progress (pct analysis_limit (frame_number + 10)) r))
      by (by rewrite (after_writes_lookup _ _ _ r Hr)).
    set (s0 := (frame_number, mean img)).
    set (rest := sampled cap (frame_number + 10) analysis_limit).
    destruct (Qltb (mean img) 30) eqn:Ed;
      [destruct (filter_dark s0 rest Ed) as (-> & -> & ->)
      |destruct (Qltb 200 (mean img)) eqn:Eb;
       [destruct (filter_bright s0 rest Ed Eb) as (-> & -> & ->)
       |destruct (filter_normal s0 rest Ed Eb) as (-> & -> & ->)]];
      unfold mbind, M_bind, lift;
      rewrite div_pos_run by lia; rewrite (set_item_run _ _ _ r Hr);
      fold (pct analysis_limit (frame_number + 10));
      (erewrite H; [|done|exact 0%Q|done|exact Hnext|lia]);
      rewrite after_writes_app; fold rest; simpl; rewrite <- ?app_assoc.
    + reflexivity.
    + reflexivity.
    + do 3 f_equal. lia.
  - rewrite sampled_stop by done. simpl.
    by rewrite !app_nil_r, Z.add_0_r, after_writes_nil.
Qed.

(** *** What each stage returns and writes *)

Lemma try_except_ret {A} (m : M A) h σ a σ' :
  m σ = (Ret a, σ') -> try_except m h σ = (Ret a, σ').
Proof. intros H. unfold try_except. by rewrite H. Qed.

Lemma extract_metadata_run E path σ :
  extract_metadata E path σ =
    (Ret (metadata_result (mediainfo_parse E (files σ !! path))), σ).
Proof.
  unfold extract_metadata, try_except, mbind, M_bind, get_files, lift.
  unfold metadata_result.
  destruct (mediainfo_parse E (files σ !! path)); reflexivity.
Qed.

Lemma calculate_file_hash_run path id σ r :
  analysis_progress σ !! id = Some r ->
  let size := size_of (files σ !! path) in
  ∃ ks, calculate_file_hash path id σ =
          (Ret (hash_result path (files σ !! path)),
           after_writes id σ ((λ k, set_hash_progress (pct size k) r) <$> ks))
      ∧ StronglySorted Z.lt ks
      ∧ Forall (λ k, 0 < k <= size) ks
      ∧ (size = 0 -> ks = [])
      ∧ (0 < size -> last ks = Some size).
Proof.
  intros Hr size. subst size. unfold calculate_file_hash.
  destruct (files σ !! path) as [content|] eqn:Hfile; cbn [size_of default].
  - destruct (hash_loop_run chunk_size id (Z.of_nat (length content)) content [] 0
                 σ r chunk_size_pos Hr)
      as (ks & Hrun & Hsorted & Hall & Hnil & Hlast); [lia..|].
    exists ks. split; [|split; [done|split; [|split]]].
    + apply try_except_ret.
      cbv [mbind M_bind getsize read_file get_files lift mret M_ret].
      rewrite Hfile. cbv beta iota. rewrite Hfile. cbv beta iota.
      rewrite Hrun. reflexivity.
    + eapply Forall_impl; [exact Hall|]. unfold size_of. simpl. intros; lia.
    + unfold size_of. simpl. intros H0. apply Hnil.
      destruct content; [done|simpl in H0; lia].
    + unfold size_of. simpl. intros H0.
      rewrite Hlast; [f_equal; lia|]. intros ->. simpl in H0. lia.
  - exists []. rewrite after_writes_nil. split; [|split; [constructor|done]].
    cbv [try_except mbind M_bind getsize read_file get_files lift mret M_ret].
    rewrite Hfile. reflexivity.
Qed.

Lemma analyze_video_frames_run E path id σ r :
  analysis_progress σ !! id = Some r ->
  let cap := video_capture E (files σ !! path) in
  let limit := analysis_limit_of cap in
  let samples := sampled cap 0 limit in
  analyze_video_frames E path id σ =
    (Ret (frames_result cap samples),
     after_writes id σ
       ((λ s, set_frame_progress (pct limit (s.1 + 10)) r) <$> samples)).
Proof.
  intros Hr cap limit samples. unfold analyze_video_frames.
  cbv [try_except mbind M_bind get_files lift mret M_ret].
  fold cap. fold (analysis_limit_of cap). fold limit.
  rewrite (frame_loop_run cap id limit [] [] 0 0 σ r Hr) by lia.
  fold samples. cbv beta iota zeta. unfold frames_result.
  destruct (Py.div_float (inject_Z (cap_frame_count cap)) (cap_fps cap));
    reflexivity.
Qed.

Lemma get_video_frame_run E path n σ :
  get_video_frame E path n σ =
    (Ret (preview_result (video_capture E (files σ !! path)) n), σ).
Proof.
  unfold get_video_frame, preview_result.
  cbv [try_except mbind M_bind get_files lift mret M_ret].
  destruct (cap_read _ n) as [img|]; [|reflexivity].
  destruct (preview_jpeg img); reflexivity.
Qed.

(** *** The run of the orchestrator *)

Lemma lookup_after id σ rs r :
  last rs = Some r -> analysis_progress (after_writes id σ rs) !! id = Some r.
Proof.
  intros H. unfold after_writes. simpl. rewrite H. apply lookup_insert_eq.
Qed.

Lemma bind_record_run id r σ :
  bind_record id r σ = (Ret tt, after_writes id σ [r]).
Proof. reflexivity. Qed.

Lemma set_item_after id f σ rs r :
  last rs = Some r ->
  set_item id f (after_writes id σ rs) = (Ret tt, after_writes id σ (rs ++ [f r])).
Proof.
  intros H. rewrite (set_item_run _ _ _ r) by by apply lookup_after.
  by rewrite after_writes_app.
Qed.

Lemma last_app_default {A} (l ws : list A) (r : A) :
  last ((l ++ [r]) ++ ws) = Some (default r (last ws)).
Proof.
  destruct ws as [|w ws _] using rev_ind.
  - by rewrite app_nil_r, last_snoc.
  - by rewrite app_assoc, !last_snoc.
Qed.

Lemma bind_run {A B} (m : M A) (k : A -> M B) σ a σ' :
  m σ = (Ret a, σ') -> (m ≫= k) σ = k a σ'.
Proof. intros H. unfold mbind, M_bind. by rewrite H. Qed.

Ltac run_set_item :=
  match goal with
  | |- (set_item ?id ?f ≫= _) (after_writes ?id ?σ ?rs) = _ =>
      rewrite (bind_run _ _ _ _ _ (set_item_after id f σ rs _ eq_refl))
  | |- set_item ?id ?f (after_writes ?id ?σ ?rs) = _ =>
      rewrite (set_item_after id f σ rs _ eq_refl)
  end.

Theorem perform_full_analysis_run E path id σ :
  let found := files σ !! path in
  let cap := video_capture E found in
  let limit := analysis_limit_of cap in
  let samples := sampled cap 0 limit in
  let size := size_of found in
  ∃ ks,
    perform_full_analysis E path id σ =
      (Ret tt,
       after_writes id σ
         (run_trace (metadata_result (mediainfo_parse E found))
                    (hash_result path found) (pct size <$> ks)
                    (frames_result cap samples)
                    ((λ s, pct limit (s.1 + 10)) <$> samples)
                    (preview_result cap 0)))
    ∧ StronglySorted Z.lt ks
    ∧ Forall (λ k, 0 < k <= size) ks
    ∧ (size = 0 -> ks = [])
    ∧ (0 < size -> last ks = Some size).
Proof.
  intros found cap limit samples size.
  set (r0 := initial_record).
  set (r1 := set_status "Extracting metadata..." r0).
  set (md := metadata_result (mediainfo_parse E found)).
  set (r2 := set_result "metadata" md r1).
  set (r3 := set_metadata_done true r2).
  set (r4 := set_status "Calculating file hash..." r3).
  destruct (calculate_file_hash_run path id (after_writes id σ [r0; r1; r2; r3; r4])
              r4) as (ks & Hhash & Hks); [by apply lookup_after|].
  exists ks. split; [|exact Hks]. clear Hks.
  change (files (after_writes id σ [r0; r1; r2; r3; r4])) with (files σ) in Hhash.
  fold found size in Hhash.
  unfold perform_full_analysis, perform_full_analysis_with, pipeline_with.
  cbn [stages_of call_extract_metadata call_calculate_file_hash
       call_analyze_video_frames call_get_video_frame].
  rewrite (bind_run _ _ _ _ _ (bind_record_run id r0 σ)).
  apply try_except_ret.
  run_set_item.
  rewrite (bind_run _ _ _ _ _ (extract_metadata_run E path _)).
  do 3 run_set_item.
  rewrite (bind_run _ _ _ _ _ Hhash). rewrite after_writes_app.
  set (hw := (λ k : Z, set_hash_progress (pct size k) r4) <$> ks).
  set (r5 := set_result "hash" (hash_result path found) (default r4 (last hw))).
  set (r6 := set_status "Analyzing video frames..." r5).
  rewrite (bind_run _ _ _ _ _
             (set_item_after id _ σ _ _ (last_app_default [r0; r1; r2; r3] hw r4))).
  fold r5.
  rewrite (bind_run _ _ _ _ _
             (set_item_after id _ σ _ r5 (last_snoc _ _))).
  fold r6.
  set (rs6 := (([r0; r1; r2; r3; r4] ++ hw) ++ [r5]) ++ [r6]).
  assert (H6 : analysis_progress (after_writes id σ rs6) !! id = Some r6)
    by (apply lookup_after, last_snoc).
  pose proof (analyze_video_frames_run E path id _ r6 H6) as Hframes.
  change (files (after_writes id σ rs6)) with (files σ) in Hframes.
  cbv zeta in Hframes. fold found cap limit samples in Hframes.
  rewrite (bind_run _ _ _ _ _ Hframes). rewrite after_writes_app.
  set (fw := (λ s : Z * Q, set_frame_progress (pct limit (s.1 + 10)) r6) <$> samples).
  set (r7 := set_result "frames" (frames_result cap samples) (default r6 (last fw))).
  rewrite (bind_run _ _ _ _ _
             (set_item_after id _ σ _ _
                (last_app_default (([r0; r1; r2; r3; r4] ++ hw) ++ [r5]) fw r6))).
  fold r7.
  rewrite (bind_run _ _ _ _ _ (get_video_frame_run E path 0 _)).
  change (files (after_writes id σ ((rs6 ++ fw) ++ [r7]))) with (files σ).
  fold found cap.
  rewrite (bind_run _ _ _ _ _
             (set_item_after id _ σ _ r7 (last_snoc _ _))).
  rewrite (set_item_after id _ σ _ _ (last_snoc _ _)).
  do 2 f_equal. unfold run_trace. subst rs6 hw fw r7 r6 r5 r4 r3 r2 r1 r0.
  rewrite <- !list_fmap_compose. rewrite <- !app_assoc. reflexivity.
Qed.

Lemma lookup_after_ne id other σ rs :
  other ≠ id ->
  analysis_progress (after_writes id σ rs) !! other = analysis_progress σ !! other.
Proof.
  intros Hne. unfold after_writes. cbn [analysis_progress].
  destruct (last rs); [|done]. by rewrite lookup_insert_ne.
Qed.

Lemma run_trace_last md h hps fr fps pv :
  last (run_trace md h hps fr fps pv) = Some (final_record md h hps fr fps pv).
Proof.
  unfold run_trace.
  rewrite !last_app. cbn [last]. f_equal.
  rewrite !fmap_last. unfold final_record.
  destruct (last hps), (last fps); reflexivity.
Qed.

(** Every run returns, and leaves a complete record with the four results. *)
Lemma perform_full_analysis_final E path id σ :
  let found := files σ !! path in
  let cap := video_capture E found in
  let samples := sampled cap 0 (analysis_limit_of cap) in
  ∃ σ' hps fps,
    perform_full_analysis E path id σ = (Ret tt, σ')
    ∧ files σ' = files σ
    ∧ (∀ other, other ≠ id ->
         analysis_progress σ' !! other = analysis_progress σ !! other)
    ∧ analysis_progress σ' !! id =
        Some (final_record (metadata_result (mediainfo_parse E found))
                           (hash_result path found) hps
                           (frames_result cap samples) fps
                           (preview_result cap 0)).
Proof.
  intros found cap samples.
  destruct (perform_full_analysis_run E path id σ) as (ks & Hrun & _).
  eexists _, _, _. split; [exact Hrun|]. split; [reflexivity|]. split.
  - intros other Hne. by apply lookup_after_ne.
  - apply lookup_after, run_trace_last.
Qed.

(** *** Results, whatever the store holds *)

(** Whatever the store holds, a hash loop that returns has fed the hash
    object every byte of the file. *)
Lemma hash_loop_ret size id fs f hf processed σ x σ' :
  (0 < size)%nat ->
  hash_loop size id fs f hf processed σ = (Ret x, σ') -> x = hf ++ f.
Proof.
  intros Hsize. revert x σ'.
  funelim (hash_loop size id fs f hf processed σ); intros x σ' Hret.
  - assert (f = []) as ->.
    { destruct f; [done|]. destruct size; [lia|discriminate]. }
    rewrite app_nil_r. by injection Hret as <- _.
  - clear Heqcall H0.
    assert (Hf : f = (b :: bs) ++ drop size f).
    { rewrite <- Hchunk. symmetry. apply take_drop. }
    unfold mbind, M_bind, lift in Hret.
    destruct (Py.div_int _ _) as [q|e]; [|discriminate].
    destruct (set_item _ _ σ) as [[[]|e] σ1]; [|discriminate].
    apply (H q tt σ1 Hsize) in Hret. rewrite Hret, <- app_assoc. by rewrite <- Hf.
Qed.

Lemma calculate_file_hash_ret path id σ h σ' :
  calculate_file_hash path id σ = (Ret (RHash h), σ') ->
  ∃ content, files σ !! path = Some content
             ∧ RHash h = hash_result path (Some content).
Proof.
  unfold calculate_file_hash.
  cbv [try_except mbind M_bind getsize read_file get_files lift mret M_ret].
  destruct (files σ !! path) as [content|] eqn:Hfile; [|discriminate].
  intros H. exists content. split; [done|].
  cbv beta iota in H. rewrite ?Hfile in H. cbv beta iota in H.
  destruct (hash_loop _ _ _ _ _ _ _) as [[x|e] σ1] eqn:Hloop; [|discriminate].
  apply hash_loop_ret in Hloop; [|exact chunk_size_pos]. simpl in Hloop. subst x.
  by injection H as <- _.
Qed.

(** The digest is 64 characters long. *)
Lemma hexdigest_chars data :
  ∃ cs : list ascii,
    length cs = 64%nat ∧ Sha256.hexdigest data = string_of_list_ascii cs.
Proof.
  unfold Sha256.hexdigest. generalize (Sha256.digest_words (Sha256.byte_val <$> data)).
  intros s. unfold Sha256.hex8.
  exists (list_ascii_of_string (Sha256.hex_of 8 (Sha256.wa s)) ++
          list_ascii_of_string (Sha256.hex_of 8 (Sha256.wb s)) ++
          list_ascii_of_string (Sha256.hex_of 8 (Sha256.wc s)) ++
          list_ascii_of_string (Sha256.hex_of 8 (Sha256.wd s)) ++
          list_ascii_of_string (Sha256.hex_of 8 (Sha256.we s)) ++
          list_ascii_of_string (Sha256.hex_of 8 (Sha256.wf s)) ++
          list_ascii_of_string (Sha256.hex_of 8 (Sha256.wg s)) ++
          list_ascii_of_string (Sha256.hex_of 8 (Sha256.wh s))).
  split; reflexivity.
Qed.

(** Cutting 64 characters into slices of 16 gives four slices that join back
    to the whole. *)
Lemma breakdown_of_64 (cs : list ascii) :
  length cs = 64%nat ->
  let d := string_of_list_ascii cs in
  let parts := (λ i, slice d i (i + 16)) <$> range 0 (String.length d) 16 in
  String.length d = 64%nat
  ∧ length parts = 4%nat
  ∧ Forall (λ c, String.length c = 16%nat) parts
  ∧ join parts = d.
Proof.
  intros Hlen.
  do 64 (destruct cs as [|? cs]; [discriminate Hlen|]).
  destruct cs; [|discriminate Hlen].
  cbv zeta. split; [reflexivity|]. split; [reflexivity|]. split.
  - repeat constructor.
  - reflexivity.
Qed.

(** *** Percentages *)

Lemma pct_mono total a b :
  0 < total -> a <= b -> (pct total a <= pct total b)%Q.
Proof.
  intros Ht Hab. unfold pct.
  apply Qmult_le_compat_r; [|discriminate].
  apply Qmult_le_compat_r.
  - rewrite <- Zle_Qle. exact Hab.
  - apply Qlt_le_weak, Qinv_lt_0_compat. by rewrite <- (Zlt_Qlt 0).
Qed.

Lemma pct_zero total : (pct total 0 == 0)%Q.
Proof. unfold pct. unfold Qdiv. rewrite Qmult_0_l. apply Qmult_0_l. Qed.

Lemma pct_full total : 0 < total -> (pct total total == 100)%Q.
Proof.
  intros Ht. unfold pct. unfold Qdiv. rewrite Qmult_inv_r; [reflexivity|].
  intros H. unfold Qeq in H. simpl in H. lia.
Qed.

Lemma pct_range total k :
  0 < total -> 0 <= k <= total -> (0 <= pct total k)%Q ∧ (pct total k <= 100)%Q.
Proof.
  intros Ht [H0 H1]. split.
  - rewrite <- (pct_zero total). by apply pct_mono.
  - rewrite <- (pct_full total Ht). by apply pct_mono.
Qed.

(** *** The sampled positions *)

Lemma elem_of_sample_points n start limit :
  n ∈ sample_points start limit ↔
  ∃ k : nat, n = start + 10 * Z.of_nat k ∧ n < limit.
Proof.
  unfold sample_points. rewrite list_elem_of_fmap. split.
  - intros (k & -> & Hk). exists k. split; [done|].
    apply elem_of_seq in Hk as [_ Hk]. simpl in Hk.
    assert (Z.of_nat k < (limit - start + 9) / 10) as Hlt by lia.
    assert (10 * (Z.of_nat k + 1) <= limit - start + 9); [|lia].
    transitivity (10 * ((limit - start + 9) / 10)); [lia|].
    apply Z.mul_div_le. lia.
  - intros (k & -> & Hk). exists k. split; [done|].
    apply elem_of_seq. split; [lia|]. simpl.
    assert (Z.of_nat k + 1 <= (limit - start + 9) / 10); [|lia].
    apply Z.div_le_lower_bound; lia.
Qed.

Lemma sample_points_sorted start limit :
  StronglySorted Z.lt (sample_points start limit).
Proof.
  unfold sample_points.
  generalize (Z.to_nat ((limit - start + 9) / 10)). intros len.
  generalize 0%nat. induction len as [|len IH]; intros i; simpl.
  - constructor.
  - constructor; [apply IH|].
    apply Forall_fmap, Forall_forall. intros k Hk.
    apply elem_of_seq in Hk. simpl. lia.
Qed.

Lemma decode_prefix_elem cap points n b :
  (n, b) ∈ decode_prefix cap points ->
  n ∈ points ∧ ∃ img, cap_read cap n = Some img ∧ b = mean img.
Proof.
  induction points as [|p points IH]; simpl; [by intros ?%elem_of_nil|].
  destruct (cap_read cap p) as [img|] eqn:Hread; [|by intros ?%elem_of_nil].
  intros [Heq|Hin]%elem_of_cons.
  - injection Heq as -> ->. split; [left|]. by exists img.
  - destruct (IH Hin) as [Hn Himg]. split; [by right|done].
Qed.

Lemma decode_prefix_all cap points :
  Forall (λ n, is_Some (cap_read cap n)) points ->
  (decode_prefix cap points).*1 = points.
Proof.
  induction 1 as [|p points [img Himg] _ IH]; simpl; [done|].
  rewrite Himg. csimpl. by f_equal.
Qed.

Lemma decode_prefix_sorted cap points :
  StronglySorted Z.lt points ->
  StronglySorted Z.lt (decode_prefix cap points).*1.
Proof.
  induction 1 as [|p points Hsorted IH Hall]; simpl; [constructor|].
  destruct (cap_read cap p); csimpl; [|constructor].
  constructor; [exact IH|].
  apply Forall_forall. intros n Hn.
  apply list_elem_of_fmap in Hn as ([n' b] & -> & Hin).
  apply decode_prefix_elem in Hin as [Hin _].
  rewrite Forall_forall in Hall. by apply Hall.
Qed.

(** Whatever the store holds, a frame loop that returns has classified
    exactly the sampled frames. *)
Lemma frame_loop_ret cap id limit dark bright normal fn σ res σ' :
  frame_loop cap id limit dark bright normal fn σ = (Ret res, σ') ->
  let samples := sampled cap fn limit in
  res = (dark ++ (entry_of <$> filter is_dark samples),
         bright ++ (entry_of <$> filter is_bright samples),
         normal + Z.of_nat (length (filter is_normal samples))).
Proof.
  revert res σ'.
  funelim (frame_loop cap id limit dark bright normal fn σ); intros res σ' Hret.
  - rewrite sampled_done by done. simpl.
    rewrite !app_nil_r, Z.add_0_r. by injection Hret as <- _.
  - clear Heqcall. rewrite (sampled_step _ _ _ img) by done.
    set (s0 := (frame_number, mean img)).
    set (rest := sampled cap (frame_number + 10) analysis_limit).
    destruct (Qltb (mean img) 30) eqn:Ed;
      [destruct (filter_dark s0 rest Ed) as (-> & -> & ->)
      |destruct (Qltb 200 (mean img)) eqn:Eb;
       [destruct (filter_bright s0 rest Ed Eb) as (-> & -> & ->)
       |destruct (filter_normal s0 rest Ed Eb) as (-> & -> & ->)]];
      unfold mbind, M_bind, lift in Hret;
      (destruct (Py.div_int _ _) as [q|?]; [|discriminate]);
      (destruct (set_item _ _ σ) as [[[]|?] σ1]; [|discriminate]);
      eapply H in Hret; try done; try exact 0%Q;
      rewrite Hret; fold rest; simpl; rewrite <- ?app_assoc.
    + reflexivity.
    + reflexivity.
    + f_equal. lia.
  - rewrite sampled_stop by done. simpl.
    rewrite !app_nil_r, Z.add_0_r. by injection Hret as <- _.
Qed.

Lemma analyze_video_frames_ret E path id σ f σ' :
  analyze_video_frames E path id σ = (Ret (RFrames f), σ') ->
  let cap := video_capture E (files σ !! path) in
  RFrames f = frames_result cap (sampled cap 0 (analysis_limit_of cap)).
Proof.
  intros H cap. unfold analyze_video_frames in H.
  cbv [try_except mbind M_bind get_files lift mret M_ret] in H.
  fold cap in H. fold (analysis_limit_of cap) in H.
  destruct (frame_loop _ _ _ _ _ _ _ _) as [[res|e] σ1] eqn:Hloop;
    [|discriminate].
  apply frame_loop_ret in Hloop. cbv zeta in Hloop. subst res.
  cbv beta iota zeta in H. unfold frames_result.
  destruct (Py.div_float _ _) as [seconds|e]; [|discriminate].
  by injection H as <- _.
Qed.

(** *** Order and classes of the sampled frames *)

Lemma StronglySorted_sublist {A} (R : relation A) (l1 l2 : list A) :
  l1 `sublist_of` l2 -> StronglySorted R l2 -> StronglySorted R l1.
Proof.
  induction 1 as [|x l1 l2 Hsub IH|x l1 l2 Hsub IH]; intros Hs.
  - constructor.
  - apply StronglySorted_inv in Hs as [Hs Hall]. constructor; [by apply IH|].
    apply Forall_forall. intros y Hy. rewrite Forall_forall in Hall.
    apply Hall. by eapply elem_of_sublist.
  - apply StronglySorted_inv in Hs as [Hs _]. by apply IH.
Qed.

Lemma fmap_sublist {A B} (f : A -> B) (l1 l2 : list A) :
  l1 `sublist_of` l2 -> f <$> l1 `sublist_of` f <$> l2.
Proof.
  induction 1; csimpl; [constructor|by constructor|by constructor].
Qed.

Lemma Qltb_lt a b : Qltb a b = true ↔ (a < b)%Q.
Proof.
  unfold Qltb. rewrite negb_true_iff. split.
  - intros H. apply Qnot_le_lt. intros Hle. apply Qle_bool_iff in Hle. congruence.
  - intros H. destruct (Qle_bool b a) eqn:E; [|done].
    apply Qle_bool_iff in E. by apply Qlt_not_le in H.
Qed.

Lemma Qltb_ge a b : Qltb a b = false ↔ ¬ (a < b)%Q.
Proof.
  rewrite <- Qltb_lt. by destruct (Qltb a b).
Qed.

Lemma classes_partition (samples : list (Z * Q)) :
  (length (filter is_dark samples) + length (filter is_bright samples)
   + length (filter is_normal samples) = length samples)%nat.
Proof.
  induction samples as [|s samples IH]; [reflexivity|].
  destruct (is_dark s) eqn:Hd;
    [destruct (filter_dark s samples Hd) as (-> & -> & ->)
    |destruct (is_bright s) eqn:Hb;
     [destruct (filter_bright s samples Hd Hb) as (-> & -> & ->)
     |destruct (filter_normal s samples Hd Hb) as (-> & -> & ->)]];
    simpl; lia.
Qed.

Lemma sampled_sorted cap start limit :
  StronglySorted Z.lt (sampled cap start limit).*1.
Proof. apply decode_prefix_sorted, sample_points_sorted. Qed.

Lemma examples_sorted (p : Z * Q -> bool) (samples : list (Z * Q)) n :
  StronglySorted Z.lt samples.*1 ->
  StronglySorted Z.lt (frame <$> take n (entry_of <$> filter p samples)).
Proof.
  intros Hs. rewrite <- fmap_take, <- list_fmap_compose.
  eapply StronglySorted_sublist; [|exact Hs].
  change (frame ∘ entry_of) with (@fst Z Q).
  apply fmap_sublist. etransitivity; [apply sublist_take|apply sublist_filter].
Qed.

(** *** What the routes and the later events leave alone *)

Lemma upload_file_keeps_records E req now σ :
  analysis_progress (upload_file E req now σ).2 = analysis_progress σ
  ∧ writes (upload_file E req now σ).2 = writes σ.
Proof.
  unfold upload_file, mbind, M_bind, lift.
  destruct (request_files req) as [[file|]|e]; [|done..].
  destruct (String.eqb (upload_filename file) ""); [done|].
  destruct (allowed_file E (upload_filename file)); [|done].
  cbv [try_except mbind M_bind save lift write_file mret M_ret].
  by destruct (file_save E _) as [[]|e].
Qed.

Lemma routes_read_only file_id σ :
  (get_progress file_id σ).2 = σ ∧ (get_results file_id σ).2 = σ.
Proof.
  unfold get_progress, get_results.
  destruct (analysis_progress σ !! file_id) as [r|]; [|done].
  by destruct (String.eqb (status r) "complete").
Qed.

Lemma step_keeps_record E ev σ id r :
  ¬ runs_on id ev ->
  analysis_progress σ !! id = Some r ->
  analysis_progress (step E ev σ) !! id = Some r.
Proof.
  intros Hev Hr. destruct ev as [req now|path id'|id'|id']; cbn [step].
  - destruct (upload_file_keeps_records E req now σ) as [-> _]. exact Hr.
  - destruct (perform_full_analysis_run E path id' σ) as (ks & -> & _).
    cbn [snd]. rewrite lookup_after_ne; [exact Hr|].
    intros ->. by apply Hev.
  - destruct (routes_read_only id' σ) as [-> _]. exact Hr.
  - destruct (routes_read_only id' σ) as [_ ->]. exact Hr.
Qed.

Lemma run_events_keep_record E evs σ id r :
  Forall (λ ev, ¬ runs_on id ev) evs ->
  analysis_progress σ !! id = Some r ->
  analysis_progress (run_events E evs σ) !! id = Some r.
Proof.
  unfold run_events. intros Hevs. revert σ.
  induction Hevs as [|ev evs Hev _ IH]; intros σ Hr; [exact Hr|].
  cbn [foldl]. apply IH. by apply step_keeps_record.
Qed.

(** *** An exception that leaves a stage *)

Lemma escaped_exception S path id σ e σ1 r1 :
  pipeline_with S path id (after_writes id σ [initial_record]) = (Raise e, σ1) ->
  analysis_progress σ1 !! id = Some r1 ->
  perform_full_analysis_with S path id σ =
    (Ret tt, after_writes id σ1 [set_status ("error: " +:+ e) r1]).
Proof.
  intros Hraise Hr1. unfold perform_full_analysis_with.
  rewrite (bind_run _ _ _ _ _ (bind_record_run id initial_record σ)).
  unfold try_except. rewrite Hraise. unfold on_error.
  by apply set_item_run.
Qed.

(** *** [repr] of a plain string *)

Lemma repr_char_plain c :
  Py.isprintable c && negb (Ascii.eqb c "'") && negb (Ascii.eqb c "\") = true ->
  Py.repr_char "'" c = String c "" ∧ Ascii.eqb "'" c = false.
Proof.
  destruct c as [[] [] [] [] [] [] [] []]; vm_compute; intros H;
    (discriminate H || (split; reflexivity)).
Qed.

Lemma repr_plain s :
  plain s = true -> Py.repr s = ("'" +:+ s +:+ "'")%string.
Proof.
  intros Hs.
  assert (H : Py.contains "'" s = false ∧ Py.repr_chars "'" s = s).
  { induction s as [|c s IH]; [done|].
    cbn [plain] in Hs. apply andb_prop in Hs as [Hc Hs].
    destruct (repr_char_plain c Hc) as [Hchar Hq].
    destruct (IH Hs) as [IH1 IH2]. split.
    - unfold Py.contains in *. cbn [list_ascii_of_string existsb].
      by rewrite Hq, IH1.
    - cbn [Py.repr_chars]. by rewrite Hchar, IH2. }
  destruct H as [Hno Hchars]. unfold Py.repr. rewrite Hno.
  cbv zeta. cbn [andb]. by rewrite Hchars.
Qed.

Lemma plain_string_of_uint d : plain (NilEmpty.string_of_uint d) = true.
Proof. induction d; cbn [NilEmpty.string_of_uint plain]; try done. Qed.

Lemma str_int_plain z : plain (str_int z) = true.
Proof.
  unfold str_int, NilZero.string_of_int, NilZero.string_of_uint.
  destruct (Z.to_int z) as [d|d]; destruct d; try reflexivity;
    try apply (plain_string_of_uint (_ _));
    cbn [plain]; apply (plain_string_of_uint (_ _)).
Qed.

(** ** The orchestrator: stage failures and final statuses *)

Lemma final_record_lookup md h hps fr fps pv :
  let r := final_record md h hps fr fps pv in
  results r !! "metadata" = Some md
  ∧ results r !! "hash" = Some h
  ∧ results r !! "frames" = Some fr
  ∧ results r !! "preview_frame" = Some (RPreview pv).
Proof.
  unfold final_record. cbn [results].
  repeat split;
    repeat (rewrite lookup_insert_eq || rewrite lookup_insert_ne by done); done.
Qed.

(** C1, counterexample. With the file missing from the upload folder the hash
    stage cannot open it, yet the run does not end in an error status: the
    behaviour the claim describes fails at this input. *)
Lemma hash_failure_does_not_abort :
  ¬ aborts_on_hash_failure sample_env "uploads/1700000000_clip.mp4" "1700000000"
      empty_state.
Proof.
  intros H. destruct (H (lookup_empty _)) as (r & Hr & Herr & _).
  destruct (perform_full_analysis_final sample_env "uploads/1700000000_clip.mp4"
              "1700000000" empty_state) as (σ' & hps & fps & Hrun & _ & _ & Hfin).
  rewrite Hrun in Hr. cbn [snd] in Hr. rewrite Hfin in Hr.
  injection Hr as <-. discriminate Herr.
Qed.

(** C1, amended. A failure inside any stage, the hash stage and the frame
    stage included, is caught by the stage and stored as an error value under
    the stage's key; the run goes on, ends with status ['complete'] and
    stores all four results. A missing file gives an error value under
    ['hash'], a capture that reports a zero frame rate gives one under
    ['frames']. *)
Theorem stage_failures_do_not_abort E path file_id σ :
  let found := files σ !! path in
  let cap := video_capture E found in
  ∃ σ' r,
    perform_full_analysis E path file_id σ = (Ret tt, σ')
    ∧ analysis_progress σ' !! file_id = Some r
    ∧ status r = "complete"%string
    ∧ is_error (status r) = false
    ∧ metadata_done r = true
    ∧ results r !! "metadata" =
        Some (metadata_result (mediainfo_parse E found))
    ∧ results r !! "hash" = Some (hash_result path found)
    ∧ results r !! "frames" =
        Some (frames_result cap (sampled cap 0 (analysis_limit_of cap)))
    ∧ results r !! "preview_frame" = Some (RPreview (preview_result cap 0))
    ∧ hash_result path None =
        RError ("Error calculating hash: " +:+ no_such_file path)
    ∧ (∀ count read samples,
         frames_result (Capture count 0 read) samples =
           RError "Error analyzing frames: float division by zero").
Proof.
  intros found cap.
  destruct (perform_full_analysis_final E path file_id σ)
    as (σ' & hps & fps & Hrun & _ & _ & Hfin).
  fold found cap in Hfin.
  destruct (final_record_lookup (metadata_result (mediainfo_parse E found))
              (hash_result path found) hps
              (frames_result cap (sampled cap 0 (analysis_limit_of cap))) fps
              (preview_result cap 0)) as (Hm & Hh & Hf & Hp).
  eexists σ', _. split; [exact Hrun|]. split; [exact Hfin|].
  repeat split; try done.
Qed.

Lemma run_trace_split md h hps fr fps pv :
  ∃ ws, run_trace md h hps fr fps pv = ws ++ [final_record md h hps fr fps pv]
        ∧ head ws = Some initial_record
        ∧ Forall (λ w, is_terminal (status w) = false) ws.
Proof.
  unfold run_trace.
  set (r4 := set_status "Calculating file hash..." _).
  set (hw := (λ p, set_hash_progress p r4) <$> hps).
  set (r5 := set_result "hash" h _).
  set (r6 := set_status "Analyzing video frames..." r5).
  set (fw := (λ p, set_frame_progress p r6) <$> fps).
  set (r7 := set_result "frames" fr _).
  set (r8 := set_result "preview_frame" (RPreview pv) r7).
  exists ([initial_record;
           set_status "Extracting metadata..." initial_record;
           set_result "metadata" md
             (set_status "Extracting metadata..." initial_record);
           set_metadata_done true
             (set_result "metadata" md
                (set_status "Extracting metadata..." initial_record));
           r4] ++ hw ++ [r5; r6] ++ fw ++ [r7; r8]).
  split; [|split; [reflexivity|]].
  - rewrite <- !app_assoc. simpl. do 6 f_equal. f_equal. f_equal.
    subst r8 r7 fw r6 r5 hw. rewrite !fmap_last. unfold final_record.
    destruct (last hps), (last fps); reflexivity.
  - assert (H5 : status r5 = "Calculating file hash..."%string).
    { subst r5 hw. rewrite fmap_last. by destruct (last hps). }
    assert (H7 : status r7 = "Analyzing video frames..."%string).
    { subst r7 fw. rewrite fmap_last. by destruct (last fps). }
    repeat first
      [ apply Forall_app; split
      | apply Forall_cons; split
      | apply Forall_nil ];
      try reflexivity.
    + subst hw. apply Forall_fmap, Forall_true. intros p. reflexivity.
    + by rewrite H5.
    + subst fw. apply Forall_fmap, Forall_true. intros p. reflexivity.
    + by rewrite H7.
    + subst r8. cbn [status set_result]. by rewrite H7.
Qed.

(** C7, counterexample. Two uploads received within the same second run
    under the same identifier. The first run leaves a complete record; the
    first write of the second run puts a fresh running record in its place
    and the writes after it change that one: in the log of the two runs a
    write with a final status is followed by writes of other records under
    the same key. *)
Lemma complete_record_is_replaced :
  ¬ terminal_is_final
      (writes
         (upload_and_analyze sample_env (multipart second_upload) second_time
            (upload_and_analyze sample_env (multipart first_upload) first_time
               empty_state).2).2).
Proof.
  intros Hfinal.
  assert (Hlog : ∃ r r',
            writes
              (upload_and_analyze sample_env (multipart second_upload)
                 second_time
                 (upload_and_analyze sample_env (multipart first_upload)
                    first_time empty_state).2).2 !! 11%nat =
              Some ("1700000000"%string, r)
            ∧ writes
                (upload_and_analyze sample_env (multipart second_upload)
                   second_time
                   (upload_and_analyze sample_env (multipart first_upload)
                      first_time empty_state).2).2 !! 12%nat =
                Some ("1700000000"%string, r')
            ∧ status r = "complete"%string
            ∧ status r' = "running"%string).
  { eexists _, _. split; [vm_compute; reflexivity|].
    split; [vm_compute; reflexivity|]. split; reflexivity. }
  destruct Hlog as (r & r' & Hi & Hj & Hr & Hr').
  assert (Heq : r' = r).
  { apply (Hfinal 11%nat 12%nat "1700000000"%string r r'); [lia|done| |done].
    by rewrite Hr. }
  rewrite Heq, Hr in Hr'. discriminate.
Qed.

(** C7, amended. In every run the write that sets ['complete'] is the last
    write of the run: every earlier write carries a status that is neither
    ['complete'] nor an error, and no run writes an error status. Once the
    run is over its record stays as it is through every later request to the
    three routes and every later run under another identifier; the only
    thing that changes it is a later run under the same identifier, which
    starts by binding a fresh record to the key. Were an exception to leave
    a stage, the handler of [perform_full_analysis] would write the status
    ['error: ...'] as the last write of the run and leave every other field
    of the record, the results stored before the exception included, as it
    found them. *)
Theorem terminal_record_is_final E path file_id σ :
  ∃ σ' ws r,
    perform_full_analysis E path file_id σ = (Ret tt, σ')
    ∧ writes σ' = writes σ ++ ((λ w, (file_id, w)) <$> (ws ++ [r]))
    ∧ head ws = Some initial_record
    ∧ Forall (λ w, is_terminal (status w) = false) ws
    ∧ status r = "complete"%string
    ∧ is_terminal (status r) = true
    ∧ analysis_progress σ' !! file_id = Some r
    ∧ (∀ evs : list event,
         Forall (λ ev, ¬ runs_on file_id ev) evs ->
         analysis_progress (run_events E evs σ') !! file_id = Some r)
    ∧ (∀ σ1 : state,
         (get_progress file_id σ1).2 = σ1 ∧ (get_results file_id σ1).2 = σ1)
    ∧ (∀ (req : request) (now : Q) (σ1 : state),
         analysis_progress (upload_file E req now σ1).2 =
           analysis_progress σ1)
    ∧ (∀ (S : stages) (e : string) (σ1 : state) (r1 : progress_record),
         pipeline_with S path file_id
           (after_writes file_id σ [initial_record]) = (Raise e, σ1) ->
         analysis_progress σ1 !! file_id = Some r1 ->
         let r2 := set_status ("error: " +:+ e) r1 in
         perform_full_analysis_with S path file_id σ =
           (Ret tt, after_writes file_id σ1 [r2])
         ∧ is_terminal (status r2) = true
         ∧ results r2 = results r1
         ∧ metadata_done r2 = metadata_done r1
         ∧ hash_progress r2 = hash_progress r1
         ∧ frame_progress r2 = frame_progress r1).
Proof.
  destruct (perform_full_analysis_run E path file_id σ) as (ks & Hrun & _).
  match type of Hrun with
  | _ = (_, after_writes _ _ (run_trace ?md ?h ?hps ?fr ?fps ?pv)) =>
      destruct (run_trace_split md h hps fr fps pv)
        as (ws & Hsplit & Hhead & Hws);
      pose proof (run_trace_last md h hps fr fps pv) as Hlast
  end.
  eexists _, ws, _. split; [exact Hrun|]. split.
  { cbn [writes after_writes]. by rewrite Hsplit. }
  split; [exact Hhead|]. split; [exact Hws|]. split; [reflexivity|].
  split; [reflexivity|]. split.
  { by apply lookup_after. }
  split; [|split; [|split]].
  - intros evs Hevs. apply run_events_keep_record; [exact Hevs|].
    by apply lookup_after.
  - intros σ1. apply routes_read_only.
  - intros req now σ1. apply upload_file_keeps_records.
  - intros S e σ1 r1 Hraise Hr1 r2.
    split; [|repeat split; reflexivity].
    by apply escaped_exception.
Qed.

Lemma terminal_record_is_final_witness :
  ∃ r,
    analysis_progress
      (perform_full_analysis_with leaking_stages "uploads/1700000000_clip.mp4"
         "1700000000" small_file_state).2 !! "1700000000" = Some r
    ∧ status r = "error: disk failure"%string
    ∧ metadata_done r = true
    ∧ is_Some (results r !! "metadata")
    ∧ results r !! "hash" = None.
Proof.
  destruct (terminal_record_is_final sample_env "uploads/1700000000_clip.mp4"
              "1700000000" small_file_state)
    as (σ' & ws & r & _ & _ & _ & _ & _ & _ & _ & _ & _ & _ & Herr).
  edestruct (Herr leaking_stages "disk failure"%string) as (Hrun & _);
    [vm_compute; reflexivity|vm_compute; reflexivity|].
  rewrite Hrun. eexists. split; [vm_compute; reflexivity|].
  split; [reflexivity|]. split; [reflexivity|].
  split; [by eexists|reflexivity].
Defined.

(** ** The result route *)

(** C9. [get_results] answers 404 for an unknown id, the results map when
    the record's status is ['complete'], and [{'status': 'not_ready'}] for a
    record with any other status; it returns a results map in no other
    case, and it never changes the state. *)
Theorem get_results_cases file_id σ :
  (analysis_progress σ !! file_id = None ->
   get_results file_id σ = (Ret (Response (BError "File not found") 404), σ))
  ∧ (∀ r, analysis_progress σ !! file_id = Some r ->
          status r = "complete"%string ->
          get_results file_id σ = (Ret (Response (BResults (results r)) 200), σ))
  ∧ (∀ r, analysis_progress σ !! file_id = Some r ->
          status r ≠ "complete"%string ->
          get_results file_id σ = (Ret (Response BNotReady 200), σ))
  ∧ (∀ m code σ',
       get_results file_id σ = (Ret (Response (BResults m) code), σ') ->
       ∃ r, analysis_progress σ !! file_id = Some r
            ∧ status r = "complete"%string ∧ m = results r).
Proof.
  unfold get_results. repeat split.
  - by intros ->.
  - intros r -> ->. reflexivity.
  - intros r -> Hs. apply String.eqb_neq in Hs. by rewrite Hs.
  - intros m code σ' H.
    destruct (analysis_progress σ !! file_id) as [r|]; [|discriminate].
    destruct (String.eqb (status r) "complete") eqn:Hs; [|discriminate].
    apply String.eqb_eq in Hs. exists r. by injection H as <- _ _.
Qed.

Lemma get_results_cases_witness :
  get_results "1700000001" empty_file_state =
    (Ret (Response (BError "File not found") 404), empty_file_state)
  ∧ get_results "1700000000" empty_file_state =
      (Ret (Response BNotReady 200), empty_file_state)
  ∧ get_results "1700000000" complete_state =
      (Ret (Response (BResults ∅) 200), complete_state)
  ∧ ∃ r, analysis_progress complete_state !! "1700000000" = Some r
         ∧ status r = "complete"%string ∧ (∅ : gmap string rvalue) = results r.
Proof.
  destruct (get_results_cases "1700000001" empty_file_state)
    as (Hunknown & _).
  destruct (get_results_cases "1700000000" empty_file_state)
    as (_ & _ & Hrunning & _).
  destruct (get_results_cases "1700000000" complete_state)
    as (_ & Hcomplete & _ & Honly).
  split; [by apply Hunknown|].
  split; [apply (Hrunning initial_record); [reflexivity|discriminate]|].
  split; [apply (Hcomplete (set_status "complete" initial_record)); reflexivity|].
  apply (Honly ∅ 200 complete_state).
  apply (Hcomplete (set_status "complete" initial_record)); reflexivity.
Defined.

(** ** The hash stage *)

(** C10. Whenever [calculate_file_hash] returns a hash result, the digest has
    64 characters, [hash_breakdown] has exactly 4 chunks of 16 characters,
    and the chunks joined in order give the digest back. *)
Theorem hash_breakdown_roundtrip path file_id σ h σ' :
  calculate_file_hash path file_id σ = (Ret (RHash h), σ') ->
  String.length (hash h) = 64%nat
  ∧ length (hash_breakdown h) = 4%nat
  ∧ Forall (λ c, String.length c = 16%nat) (hash_breakdown h)
  ∧ join (hash_breakdown h) = hash h.
Proof.
  intros H. apply calculate_file_hash_ret in H as (content & _ & Hh).
  destruct (hexdigest_chars content) as (cs & Hlen & Hcs).
  unfold hash_result in Hh. rewrite Hcs in Hh. injection Hh as ->.
  exact (breakdown_of_64 cs Hlen).
Qed.

Lemma hash_breakdown_roundtrip_witness :
  ∃ h σ',
    calculate_file_hash "uploads/1700000000_clip.mp4" "1700000000"
      small_file_state = (Ret (RHash h), σ')
    ∧ hash_breakdown h =
        ["ba7816bf8f01cfea"; "414140de5dae2223";
         "b00361a396177a9c"; "b410ff61f20015ad"]%string
    ∧ join (hash_breakdown h) = hash h.
Proof.
  eexists _, _. split; [vm_compute; reflexivity|]. split; [reflexivity|].
  eapply (hash_breakdown_roundtrip "uploads/1700000000_clip.mp4" "1700000000"
            small_file_state).
  vm_compute. reflexivity.
Defined.

Lemma hash_loop_nil size file_id total hash_func processed σ :
  hash_loop size file_id total [] hash_func processed σ = (Ret hash_func, σ).
Proof.
  remember [] as f eqn:Hf.
  funelim (hash_loop size file_id total f hash_func processed σ);
    try reflexivity.
  all: exfalso; clear -Hchunk; by rewrite take_nil in Hchunk.
Qed.

(** C3, counterexample. For a zero-byte file the loop body never runs, so no
    progress is written: after the whole run the record is complete and its
    [hash_progress] is still the initial 0, not 100. *)
Lemma empty_file_progress_stays_zero :
  ∃ r,
    analysis_progress
      (perform_full_analysis sample_env "uploads/1700000000_empty.mp4"
         "1700000000" empty_file_state).2 !! "1700000000" = Some r
    ∧ status r = "complete"%string
    ∧ results r !! "hash" = Some (RHash empty_hash_info)
    ∧ (hash_progress r == 0)%Q
    ∧ ¬ (hash_progress r == 100)%Q.
Proof.
  eexists. split; [vm_compute; reflexivity|].
  split; [reflexivity|]. split; [vm_compute; reflexivity|].
  split; [reflexivity|]. discriminate.
Qed.

(** C3, amended. For a zero-byte file [calculate_file_hash] divides nothing
    by zero: it returns the hash result with the SHA-256 digest of the empty
    input, and it leaves the state as it found it, so it writes no progress
    and [hash_progress] keeps the value it had. *)
Theorem empty_file_hash path file_id σ :
  files σ !! path = Some [] ->
  calculate_file_hash path file_id σ = (Ret (RHash empty_hash_info), σ).
Proof.
  intros Hfile. unfold calculate_file_hash.
  cbv [try_except mbind M_bind getsize read_file get_files lift mret M_ret].
  rewrite Hfile. cbv beta iota. rewrite ?Hfile. cbv beta iota.
  rewrite hash_loop_nil. vm_compute. reflexivity.
Qed.

Lemma empty_file_hash_witness :
  files empty_file_state !! "uploads/1700000000_empty.mp4" = Some []
  ∧ calculate_file_hash "uploads/1700000000_empty.mp4" "1700000000"
      empty_file_state = (Ret (RHash empty_hash_info), empty_file_state).
Proof.
  split; [reflexivity|].
  apply (empty_file_hash "uploads/1700000000_empty.mp4" "1700000000"
           empty_file_state).
  reflexivity.
Defined.

(** ** The frame sampler *)

(** C5. The sampler works on [analysis_limit = min(frame_count, 1000)]. The
    frames it samples sit at increasing positions, each a multiple of 10 in
    [0, analysis_limit), and they are all of these positions when every one
    of them decodes (the loop stops at the first that does not). A sampled
    frame is dark when its brightness is below 30, bright when it is above
    200, normal otherwise; [frames_result] puts dark and bright frames in
    their lists and only counts the normal ones. With 5 frames the only
    position sampled is 0. *)
Theorem frame_sampling_scheme E path file_id σ r :
  analysis_progress σ !! file_id = Some r ->
  let cap := video_capture E (files σ !! path) in
  let analysis_limit := Z.min (cap_frame_count cap) 1000 in
  let samples := sampled cap 0 analysis_limit in
  (analyze_video_frames E path file_id σ).1 = Ret (frames_result cap samples)
  ∧ StronglySorted Z.lt samples.*1
  ∧ (∀ n b, (n, b) ∈ samples ->
       0 <= n < analysis_limit ∧ n mod 10 = 0
       ∧ ∃ img, cap_read cap n = Some img ∧ b = mean img)
  ∧ ((∀ n, 0 <= n < analysis_limit -> n mod 10 = 0 ->
           is_Some (cap_read cap n)) ->
     ∀ n, 0 <= n < analysis_limit -> n mod 10 = 0 -> n ∈ samples.*1)
  ∧ (∀ s, (is_dark s = true ↔ (s.2 < 30)%Q)
          ∧ (is_bright s = true ↔ (200 < s.2)%Q)
          ∧ (is_normal s = true ↔ ¬ (s.2 < 30)%Q ∧ ¬ (200 < s.2)%Q))
  ∧ (cap_frame_count cap = 5 ->
     samples = match cap_read cap 0 with
               | Some img => [(0, mean img)]
               | None => []
               end).
Proof.
  intros Hr cap analysis_limit samples.
  split; [|split; [|split; [|split; [|split]]]].
  - by rewrite (analyze_video_frames_run E path file_id σ r Hr).
  - apply sampled_sorted.
  - intros n b Hin. apply decode_prefix_elem in Hin as [Hn Himg].
    apply elem_of_sample_points in Hn as (k & -> & Hlt).
    split; [lia|]. split; [|exact Himg].
    rewrite Z.add_0_l, Z.mul_comm. apply Z_mod_mult.
  - intros Hall n Hn Hmod. unfold samples, sampled.
    rewrite decode_prefix_all.
    + apply elem_of_sample_points. exists (Z.to_nat (n / 10)).
      split; [|lia]. rewrite Z2Nat.id by (apply Z.div_pos; lia).
      rewrite Z.add_0_l. apply Z_div_exact_full_2; [lia|exact Hmod].
    + apply Forall_forall. intros m Hm.
      apply elem_of_sample_points in Hm as (k & -> & Hlt).
      apply Hall; [lia|]. rewrite Z.add_0_l, Z.mul_comm. apply Z_mod_mult.
  - intros s. unfold is_normal, is_dark, is_bright.
    split; [apply Qltb_lt|]. split; [apply Qltb_lt|].
    rewrite andb_true_iff, !negb_true_iff. by rewrite !Qltb_ge.
  - intros H5. unfold samples, analysis_limit, sampled. rewrite H5. reflexivity.
Qed.

Lemma frame_sampling_scheme_witness :
  (analyze_video_frames sample_env "uploads/1700000000_clip.mp4" "1700000000"
     small_file_state).1 = Ret (frames_result five_frames [(0, 100%Q)]).
Proof.
  destruct (frame_sampling_scheme sample_env "uploads/1700000000_clip.mp4"
              "1700000000" small_file_state initial_record eq_refl)
    as (Hrun & _ & _ & _ & _ & Hfive).
  rewrite (Hfive eq_refl) in Hrun. exact Hrun.
Defined.

(** C6. Whenever [analyze_video_frames] returns a frame result, [dark_frames]
    and [bright_frames] hold at most 20 entries: the first 20, in frame
    order, of the dark and of the bright sampled frames. The counts of the
    summary are the totals over all sampled frames, and add up to their
    number. *)
Theorem frame_lists_capped E path file_id σ f σ' :
  analyze_video_frames E path file_id σ = (Ret (RFrames f), σ') ->
  let cap := video_capture E (files σ !! path) in
  let samples := sampled cap 0 (Z.min (cap_frame_count cap) 1000) in
  let all_dark := entry_of <$> filter is_dark samples in
  let all_bright := entry_of <$> filter is_bright samples in
  (length (dark_frames f) <= 20)%nat
  ∧ (length (bright_frames f) <= 20)%nat
  ∧ dark_frames f = take 20 all_dark
  ∧ bright_frames f = take 20 all_bright
  ∧ StronglySorted Z.lt (frame <$> dark_frames f)
  ∧ StronglySorted Z.lt (frame <$> bright_frames f)
  ∧ dark_count (summary f) = Z.of_nat (length all_dark)
  ∧ bright_count (summary f) = Z.of_nat (length all_bright)
  ∧ normal_count (summary f) = Z.of_nat (length (filter is_normal samples))
  ∧ normal_frames f = normal_count (summary f)
  ∧ dark_count (summary f) + bright_count (summary f)
    + normal_count (summary f) = Z.of_nat (length samples).
Proof.
  intros H cap samples all_dark all_bright.
  apply analyze_video_frames_ret in H. cbv zeta in H.
  fold cap in H. unfold analysis_limit_of in H. fold samples in H.
  unfold frames_result in H.
  destruct (Py.div_float _ _) as [seconds|e]; [|discriminate].
  injection H as ->.
  cbn [dark_frames bright_frames summary dark_count bright_count normal_count
       normal_frames].
  fold all_dark all_bright.
  pose proof (classes_partition samples) as Hpart.
  pose proof (sampled_sorted cap 0 (Z.min (cap_frame_count cap) 1000)) as Hs.
  fold samples in Hs.
  repeat split.
  - rewrite length_take. lia.
  - rewrite length_take. lia.
  - by apply examples_sorted.
  - by apply examples_sorted.
  - unfold all_dark, all_bright. rewrite !length_fmap. lia.
Qed.

Lemma frame_lists_capped_witness :
  ∃ f σ',
    analyze_video_frames dark_env "uploads/1700000000_clip.mp4" "1700000000"
      small_file_state = (Ret (RFrames f), σ')
    ∧ length (dark_frames f) = 20%nat
    ∧ dark_count (summary f) = 30
    ∧ (length (dark_frames f) <= 20)%nat.
Proof.
  eexists _, _. split; [vm_compute; reflexivity|].
  split; [reflexivity|]. split; [reflexivity|].
  eapply (frame_lists_capped dark_env "uploads/1700000000_clip.mp4"
            "1700000000" small_file_state).
  vm_compute. reflexivity.
Defined.

(** ** The progress percentages *)

(** The hash stage writes percentages in [0, 100], in non-decreasing
    order. *)
Lemma hash_progress_writes path file_id σ r :
  analysis_progress σ !! file_id = Some r ->
  ∃ ps, (calculate_file_hash path file_id σ).2 =
          after_writes file_id σ ((λ p, set_hash_progress p r) <$> ps)
        ∧ StronglySorted Qle ps
        ∧ Forall (λ p, (0 <= p)%Q ∧ (p <= 100)%Q) ps.
Proof.
  intros Hr.
  destruct (calculate_file_hash_run path file_id σ r Hr)
    as (ks & Hrun & Hsorted & Hall & Hnil & _).
  cbv zeta in *. set (size := size_of (files σ !! path)) in *.
  exists (pct size <$> ks). rewrite Hrun. cbn [snd].
  split; [by rewrite <- list_fmap_compose|].
  destruct (decide (0 < size)) as [Hpos|Hzero].
  - split.
    + eapply StronglySorted_fmap; [|exact Hsorted].
      intros x y Hxy. apply pct_mono; [done|]. simpl in Hxy. lia.
    + apply Forall_fmap. eapply Forall_impl; [exact Hall|].
      intros k Hk. simpl in *. apply pct_range; [done|lia].
  - assert (ks = []) as ->.
    { apply Hnil. unfold size, size_of in *. lia. }
    split; constructor.
Qed.

(** The frame stage writes non-negative percentages in non-decreasing
    order. *)
Lemma frame_progress_writes E path file_id σ r :
  analysis_progress σ !! file_id = Some r ->
  ∃ ps, (analyze_video_frames E path file_id σ).2 =
          after_writes file_id σ ((λ p, set_frame_progress p r) <$> ps)
        ∧ StronglySorted Qle ps
        ∧ Forall (λ p, (0 <= p)%Q) ps.
Proof.
  intros Hr. rewrite (analyze_video_frames_run E path file_id σ r Hr).
  cbv zeta. cbn [snd].
  set (cap := video_capture E (files σ !! path)).
  set (limit := analysis_limit_of cap).
  exists ((λ n, pct limit (n + 10)) <$> (sampled cap 0 limit).*1).
  split; [by rewrite <- !list_fmap_compose|].
  destruct (decide (0 < limit)) as [Hpos|Hneg].
  - split.
    + eapply StronglySorted_fmap; [|apply sampled_sorted].
      intros x y Hxy. apply pct_mono; [done|]. simpl in Hxy. lia.
    + apply Forall_fmap, Forall_forall. intros n Hn.
      apply list_elem_of_fmap in Hn as ([n' b] & -> & Hin).
      apply decode_prefix_elem in Hin as [Hin _].
      apply elem_of_sample_points in Hin as (k & -> & _). simpl.
      rewrite <- (pct_zero limit). apply pct_mono; [done|lia].
  - rewrite sampled_done by lia. split; constructor.
Qed.

(** C2, at the failing input. For a video of 5 frames the one sampled frame
    moves the cursor to 10, and the percentage written is 10 / 5 * 100 =
    200: [frame_progress] leaves the interval [0, 100]. *)
Theorem frame_progress_exceeds_100 :
  ∃ r,
    analysis_progress
      (perform_full_analysis sample_env "uploads/1700000000_clip.mp4"
         "1700000000" small_file_state).2 !! "1700000000" = Some r
    ∧ status r = "complete"%string
    ∧ (frame_progress r == 200)%Q
    ∧ ¬ (frame_progress r <= 100)%Q
    ∧ (hash_progress r == 100)%Q.
Proof.
  eexists. split; [vm_compute; reflexivity|].
  split; [reflexivity|]. split; [reflexivity|].
  split; [|reflexivity]. intros H. vm_compute in H. by apply H.
Qed.

(** ** Uploads: digests and identifiers *)

Lemma str_int_inj a b : str_int a = str_int b -> a = b.
Proof.
  assert (Hparse : ∀ z, NilZero.int_of_string (str_int z) = Some (Z.to_int z)).
  { intros z. apply NilZero.isi; destruct z; simpl; try discriminate.
    - intros [= H]. by apply DecimalPos.Unsigned.to_uint_nonnil in H.
    - intros [= H]. by apply DecimalPos.Unsigned.to_uint_nonnil in H. }
  intros H. apply DecimalZ.to_int_inj.
  pose proof (Hparse a) as Ha. rewrite H, Hparse in Ha. by injection Ha.
Qed.

Lemma upload_file_accepted E req file now σ :
  accepted E req file now ->
  upload_file E req now σ =
    (Ret (Response (BUploaded (str_int (int_of_float now)) (upload_filename file))
                   200,
          Some (filepath_of E file now, str_int (int_of_float now))),
     State (<[filepath_of E file now := upload_content file]> (files σ))
           (analysis_progress σ) (writes σ)).
Proof.
  intros (Hparse & Hname & Hallowed & Hsave).
  unfold upload_file, mbind, M_bind, lift. rewrite Hparse.
  apply String.eqb_neq in Hname. rewrite Hname, Hallowed.
  unfold filepath_of in Hsave.
  cbv [try_except mbind M_bind save lift write_file mret M_ret].
  rewrite Hsave. reflexivity.
Qed.

Lemma upload_and_analyze_accepted E req file now σ :
  accepted E req file now ->
  ∃ σ' r,
    upload_and_analyze E req now σ =
      (Ret (Response (BUploaded (str_int (int_of_float now))
                                (upload_filename file)) 200), σ')
    ∧ analysis_progress σ' !! str_int (int_of_float now) = Some r
    ∧ status r = "complete"%string
    ∧ record_digest r = Some (Sha256.hexdigest (upload_content file))
    ∧ (∀ other, other ≠ str_int (int_of_float now) ->
         analysis_progress σ' !! other = analysis_progress σ !! other).
Proof.
  intros Hacc. unfold upload_and_analyze.
  rewrite (bind_run _ _ _ _ _ (upload_file_accepted E req file now σ Hacc)).
  cbv beta iota.
  set (σ1 := State _ _ _).
  destruct (perform_full_analysis_final E (filepath_of E file now)
              (str_int (int_of_float now)) σ1)
    as (σ' & hps & fps & Hrun & _ & Hother & Hfin).
  rewrite (bind_run _ _ _ _ _ Hrun).
  eexists σ', _. split; [reflexivity|]. split; [exact Hfin|].
  split; [reflexivity|]. split; [|exact Hother].
  unfold record_digest.
  match goal with
  | |- results (final_record ?md ?h ?hps ?fr ?fps ?pv) !! _ ≫= _ = _ =>
      destruct (final_record_lookup md h hps fr fps pv) as (_ & -> & _)
  end.
  subst σ1. cbn [files]. by rewrite lookup_insert_eq.
Qed.

(** C4, counterexample. Two different uploads received within the same
    second are given the same identifier, and once both have run the store
    holds one record for the two of them. *)
Lemma same_second_uploads_collide :
  ∃ file_id σ1 σ2,
    upload_and_analyze sample_env (multipart first_upload) first_time
      empty_state =
      (Ret (Response (BUploaded file_id "a.mp4") 200), σ1)
    ∧ upload_and_analyze sample_env (multipart second_upload) second_time σ1 =
        (Ret (Response (BUploaded file_id "b.mp4") 200), σ2)
    ∧ first_upload ≠ second_upload
    ∧ ¬ (first_time == second_time)%Q
    ∧ size (analysis_progress σ2) = 1%nat.
Proof.
  eexists _, _, _. split; [vm_compute; reflexivity|].
  split; [vm_compute; reflexivity|].
  split; [discriminate|]. split; [discriminate|]. vm_compute. reflexivity.
Qed.

(** C4, amended. Two accepted uploads, analysed one after the other: each
    record stores the SHA-256 digest of the content uploaded, so equal
    contents give equal digests. The identifier of an upload is the decimal
    text of the whole second at which it arrives: the two identifiers differ
    exactly when the two uploads arrive in different seconds, and then the
    second run leaves the record of the first as it was. *)
Theorem uploads_digests_and_ids E req1 req2 f1 f2 now1 now2 σ :
  accepted E req1 f1 now1 -> accepted E req2 f2 now2 ->
  let id1 := str_int (int_of_float now1) in
  let id2 := str_int (int_of_float now2) in
  ∃ σ1 σ2 r1 r2,
    upload_and_analyze E req1 now1 σ =
      (Ret (Response (BUploaded id1 (upload_filename f1)) 200), σ1)
    ∧ upload_and_analyze E req2 now2 σ1 =
        (Ret (Response (BUploaded id2 (upload_filename f2)) 200), σ2)
    ∧ analysis_progress σ1 !! id1 = Some r1
    ∧ analysis_progress σ2 !! id2 = Some r2
    ∧ record_digest r1 = Some (Sha256.hexdigest (upload_content f1))
    ∧ record_digest r2 = Some (Sha256.hexdigest (upload_content f2))
    ∧ (upload_content f1 = upload_content f2 ->
       record_digest r1 = record_digest r2)
    ∧ (id1 = id2 ↔ int_of_float now1 = int_of_float now2)
    ∧ (id1 ≠ id2 -> analysis_progress σ2 !! id1 = Some r1).
Proof.
  intros H1 H2 id1 id2.
  destruct (upload_and_analyze_accepted E req1 f1 now1 σ H1)
    as (σ1 & r1 & Hrun1 & Hr1 & _ & Hd1 & _).
  destruct (upload_and_analyze_accepted E req2 f2 now2 σ1 H2)
    as (σ2 & r2 & Hrun2 & Hr2 & _ & Hd2 & Hother).
  exists σ1, σ2, r1, r2. repeat split; try done.
  - intros Heq. by rewrite Hd1, Hd2, Heq.
  - apply str_int_inj.
  - intros Heq. unfold id1, id2. by rewrite Heq.
  - intros Hne. rewrite Hother; done.
Qed.

Lemma uploads_digests_and_ids_witness :
  accepted sample_env (multipart first_upload) first_upload first_time
  ∧ accepted sample_env (multipart third_upload) third_upload third_time
  ∧ ∃ σ1 σ2 r1 r2,
      analysis_progress σ1 !! "1700000000" = Some r1
      ∧ analysis_progress σ2 !! "1700000001" = Some r2
      ∧ record_digest r1 = record_digest r2
      ∧ analysis_progress σ2 !! "1700000000" = Some r1.
Proof.
  assert (Ha : accepted sample_env (multipart first_upload) first_upload
                 first_time)
    by (split; [reflexivity|]; repeat split; [discriminate|reflexivity..]).
  assert (Hb : accepted sample_env (multipart third_upload) third_upload
                 third_time)
    by (split; [reflexivity|]; repeat split; [discriminate|reflexivity..]).
  split; [exact Ha|]. split; [exact Hb|].
  destruct (uploads_digests_and_ids sample_env (multipart first_upload)
              (multipart third_upload) first_upload
              third_upload first_time third_time
              empty_state Ha Hb)
    as (σ1 & σ2 & r1 & r2 & _ & _ & Hr1 & Hr2 & _ & _ & Hsame & _ & Hkeep).
  exists σ1, σ2, r1, r2. split; [exact Hr1|]. split; [exact Hr2|].
  split; [by apply Hsame|]. apply Hkeep. discriminate.
Defined.

(** ** The metadata extractor *)

(** The blocks the loop over the tracks leaves in [data]. *)
Lemma foldl_add_track tracks :
  let data := foldl add_track (None, None) tracks in
  (∀ vb, data.1 = Some vb ->
         ∃ t, t ∈ tracks ∧ t_track_type t = "Video"%string
              ∧ vb = video_of_track t)
  ∧ (∀ ab, data.2 = Some ab ->
           ∃ t, t ∈ tracks ∧ t_track_type t = "Audio"%string
                ∧ ab = audio_of_track t)
  ∧ (data = (None, None) ↔ Forall other_track tracks).
Proof.
  induction tracks as [|t tracks IH] using rev_ind; cbv zeta.
  - simpl. repeat split; try discriminate. constructor.
  - rewrite foldl_snoc. cbv zeta in IH. destruct IH as (IHv & IHa & IHn).
    destruct (foldl add_track (None, None) tracks) as [v a].
    unfold add_track at 1 2 3. cbn [fst snd].
    destruct (String.eqb (t_track_type t) "Video") eqn:Ev;
      [|destruct (String.eqb (t_track_type t) "Audio") eqn:Ea]; cbn [fst snd].
    + apply String.eqb_eq in Ev. split; [|split].
      * intros vb [= <-]. exists t. split; [|done].
        rewrite elem_of_app. right. constructor.
      * intros ab Hab. destruct (IHa ab Hab) as (t' & Hin & Ht').
        exists t'. split; [|done].
        rewrite elem_of_app. by left.
      * split; [by intros [=]|]. intros Hall.
        rewrite Forall_app, Forall_singleton in Hall.
        destruct Hall as [_ [Hv' _]]. congruence.
    + apply String.eqb_eq in Ea. split; [|split].
      * intros vb Hvb. destruct (IHv vb Hvb) as (t' & Hin & Ht').
        exists t'. split; [|done].
        rewrite elem_of_app. by left.
      * intros ab [= <-]. exists t. split; [|done].
        rewrite elem_of_app. right. constructor.
      * split; [by intros [=]|]. intros Hall.
        rewrite Forall_app, Forall_singleton in Hall.
        destruct Hall as [_ [_ Ha']]. congruence.
    + apply String.eqb_neq in Ev, Ea. split; [|split].
      * intros vb Hvb. destruct (IHv vb Hvb) as (t' & Hin & Ht').
        exists t'. split; [|done].
        rewrite elem_of_app. by left.
      * intros ab Hab. destruct (IHa ab Hab) as (t' & Hin & Ht').
        exists t'. split; [|done].
        rewrite elem_of_app. by left.
      * rewrite IHn, Forall_app, Forall_singleton. unfold other_track.
        tauto.
Qed.

(** C8. [extract_metadata] always returns, and leaves the state as it was. An
    exception of the parser becomes [{'error': 'Error extracting metadata:
    ...'}]. When the parse has neither a video nor an audio track the result
    is the error record ['No metadata available']; otherwise it holds the
    block of a video track, of an audio track, or both. In a block every
    attribute that the track lacks reads ['N/A'], followed by its unit where
    the field has one. *)
Theorem extract_metadata_soft E path σ :
  (∃ v, extract_metadata E path σ = (Ret v, σ))
  ∧ (∀ e, mediainfo_parse E (files σ !! path) = Raise e ->
          extract_metadata E path σ =
            (Ret (RError ("Error extracting metadata: " +:+ e)), σ))
  ∧ (∀ tracks, mediainfo_parse E (files σ !! path) = Ret tracks ->
       Forall other_track tracks ->
       extract_metadata E path σ = (Ret (RError "No metadata available"), σ))
  ∧ (∀ tracks, mediainfo_parse E (files σ !! path) = Ret tracks ->
       ¬ Forall other_track tracks ->
       ∃ v a,
         extract_metadata E path σ = (Ret (RMetadata v a), σ)
         ∧ (is_Some v ∨ is_Some a)
         ∧ (∀ vb, v = Some vb ->
              ∃ t, t ∈ tracks ∧ t_track_type t = "Video"%string
                   ∧ vb = video_of_track t)
         ∧ (∀ ab, a = Some ab ->
              ∃ t, t ∈ tracks ∧ t_track_type t = "Audio"%string
                   ∧ ab = audio_of_track t))
  ∧ (∀ t,
       (t_codec t = VNone -> video_codec (video_of_track t) = VStr "N/A")
       ∧ (t_duration t = VNone ->
          video_duration (video_of_track t) = "N/A ms"%string)
       ∧ (t_width t = VNone -> video_width (video_of_track t) = "N/A px"%string)
       ∧ (t_height t = VNone ->
          video_height (video_of_track t) = "N/A px"%string)
       ∧ (t_frame_rate t = VNone ->
          video_frame_rate (video_of_track t) = "N/A fps"%string)
       ∧ (t_bit_rate t = VNone ->
          video_bit_rate (video_of_track t) = "N/A bps"%string)
       ∧ (t_color_space t = VNone ->
          video_color_space (video_of_track t) = VStr "N/A")
       ∧ (t_scan_type t = VNone ->
          video_scan_type (video_of_track t) = VStr "N/A")
       ∧ (t_codec t = VNone -> audio_codec (audio_of_track t) = VStr "N/A")
       ∧ (t_sampling_rate t = VNone ->
          audio_sample_rate (audio_of_track t) = "N/A Hz"%string)
       ∧ (t_channel_s t = VNone ->
          audio_channels (audio_of_track t) = VStr "N/A")
       ∧ (t_bit_rate t = VNone ->
          audio_bit_rate (audio_of_track t) = "N/A bps"%string)).
Proof.
  rewrite extract_metadata_run. unfold metadata_result.
  split; [by eexists|]. split; [by intros e ->|]. split; [|split].
  - intros tracks -> Hall.
    apply (proj2 (proj2 (foldl_add_track tracks))) in Hall. by rewrite Hall.
  - intros tracks -> Hsome.
    destruct (foldl_add_track tracks) as (Hv & Ha & Hnone).
    cbv zeta in *. rewrite <- Hnone in Hsome.
    destruct (foldl add_track (None, None) tracks) as [[vb|] [ab|]];
      [eexists _, _; split; [reflexivity|]; split; [eauto|]; split; assumption..
      |done].
  - intros t. unfold video_of_track, audio_of_track.
    cbn [video_codec video_duration video_width video_height video_frame_rate
         video_bit_rate video_color_space video_scan_type audio_codec
         audio_sample_rate audio_channels audio_bit_rate].
    repeat split; by intros ->.
Qed.

Lemma extract_metadata_soft_witness :
  extract_metadata sample_env "uploads/1700000000_gone.mp4" small_file_state =
    (Ret (RError "Error extracting metadata: file not found"), small_file_state)
  ∧ extract_metadata general_env "uploads/1700000000_clip.mp4" small_file_state =
      (Ret (RError "No metadata available"), small_file_state)
  ∧ (∃ v a,
       extract_metadata sample_env "uploads/1700000000_clip.mp4" small_file_state =
         (Ret (RMetadata v a), small_file_state)
       ∧ (is_Some v ∨ is_Some a))
  ∧ video_duration (video_of_track bare_video_track) = "N/A ms"%string
  ∧ video_codec (video_of_track bare_video_track) = VStr "N/A".
Proof.
  destruct (extract_metadata_soft sample_env "uploads/1700000000_gone.mp4"
              small_file_state) as (_ & Hraise & _ & _ & Hfields).
  destruct (extract_metadata_soft general_env "uploads/1700000000_clip.mp4"
              small_file_state) as (_ & _ & Hnone & _).
  destruct (extract_metadata_soft sample_env "uploads/1700000000_clip.mp4"
              small_file_state) as (_ & _ & _ & Hsome & _).
  split; [by apply Hraise|].
  split.
  { apply (Hnone [general_track]); [reflexivity|].
    repeat constructor; discriminate. }
  split.
  { destruct (Hsome [sample_video_track]) as (v & a & Hrun & Hblocks & _).
    - reflexivity.
    - intros Hall. apply Forall_inv in Hall as [Hvideo _]. by apply Hvideo.
    - by exists v, a. }
  destruct (Hfields bare_video_track) as (Hcodec & Hduration & _).
  split; [by apply Hduration|by apply Hcodec].
Defined.

(** ** Further properties: the upload route *)

Lemma rsplit_dot_none s : has_dot s = false -> rsplit_dot s = None.
Proof.
  induction s as [|c s IH]; simpl; [done|].
  intros [Hc Hs]%orb_false_iff. by rewrite (IH Hs), Hc.
Qed.

Lemma rsplit_dot_cons c s :
  rsplit_dot (String c s) =
    match rsplit_dot s with
    | Some (before, after) => Some (String c before, after)
    | None => if Ascii.eqb c "." then Some (EmptyString, s) else None
    end.
Proof. reflexivity. Qed.

Lemma rsplit_dot_app name ext :
  has_dot ext = false -> rsplit_dot (name +:+ "." +:+ ext) = Some (name, ext).
Proof.
  intros Hext. induction name as [|c name IH].
  - change ("" +:+ "." +:+ ext) with (String "." ext).
    by rewrite rsplit_dot_cons, (rsplit_dot_none ext Hext).
  - change (String c name +:+ "." +:+ ext) with (String c (name +:+ "." +:+ ext)).
    by rewrite rsplit_dot_cons, IH.
Qed.

Lemma rsplit_dot_some s name ext :
  rsplit_dot s = Some (name, ext) ->
  s = name +:+ "." +:+ ext ∧ has_dot ext = false.
Proof.
  revert name. induction s as [|c s IH]; intros name; [done|].
  rewrite rsplit_dot_cons.
  destruct (rsplit_dot s) as [[before after]|] eqn:Hs.
  - intros [= <- <-]. destruct (IH before eq_refl) as [-> Hext]. done.
  - destruct (Ascii.eqb_spec c "."); [|done].
    intros [= <- <-]. subst c. split; [done|].
    clear IH. induction s as [|d s IH]; [done|].
    rewrite rsplit_dot_cons in Hs.
    destruct (rsplit_dot s) as [[? ?]|]; [done|].
    destruct (Ascii.eqb d ".") eqn:Hd; [done|]. simpl. rewrite Hd. by apply IH.
Qed.

(** X1. [allowed_file] accepts exactly the names that end in a dot followed by
    a dot-free extension whose lower-case form is one of the seven allowed
    extensions: only the text after the last dot counts, and a name without
    a dot is refused. *)
Theorem allowed_file_last_extension E filename :
  allowed_file E filename = true ↔
  ∃ name ext, filename = name +:+ "." +:+ ext
              ∧ has_dot ext = false
              ∧ str_lower E ext ∈ ALLOWED_EXTENSIONS.
Proof.
  unfold allowed_file. split.
  - destruct (rsplit_dot filename) as [[name ext]|] eqn:Hsplit; [|done].
    intros Hin%bool_decide_eq_true.
    apply rsplit_dot_some in Hsplit as [-> Hext]. by exists name, ext.
  - intros (name & ext & -> & Hext & Hin).
    rewrite (rsplit_dot_app name ext Hext). by apply bool_decide_eq_true.
Qed.


(** X3. What an accepted upload saves is what the analysis reads: after
    [upload_file] the thread's path holds the uploaded bytes, [open] and
    [getsize] on it give these bytes and their number, and every other file
    is as it was. *)
Theorem upload_saves_content E req file now σ :
  accepted E req file now ->
  let path := filepath_of E file now in
  ∃ resp file_id σ',
    upload_file E req now σ = (Ret (resp, Some (path, file_id)), σ')
    ∧ read_file path σ' = (Ret (upload_content file), σ')
    ∧ getsize path σ' = (Ret (Z.of_nat (length (upload_content file))), σ')
    ∧ delete path (files σ') = delete path (files σ).
Proof.
  intros Hacc path. rewrite (upload_file_accepted E req file now σ Hacc).
  eexists _, _, _. split; [reflexivity|]. fold path.
  cbv [getsize read_file get_files mbind M_bind mret M_ret lift]. cbn [files].
  rewrite lookup_insert_eq. repeat split. apply delete_insert_eq.
Qed.

Lemma upload_saves_content_witness :
  accepted sample_env (multipart first_upload) first_upload first_time
  ∧ ∃ σ', read_file "uploads/1700000000_a.mp4" σ' = (Ret [x61]%byte, σ').
Proof.
  assert (Ha : accepted sample_env (multipart first_upload) first_upload
                 first_time)
    by (split; [reflexivity|]; repeat split; [discriminate|reflexivity..]).
  split; [exact Ha|].
  destruct (upload_saves_content sample_env (multipart first_upload)
              first_upload first_time empty_state Ha)
    as (resp & file_id & σ' & _ & Hread & _).
  exists σ'. exact Hread.
Defined.

(** X4. Two accepted uploads that arrive in the same second under names that
    sanitise to the same name are saved at the same path: after the second
    one the path holds the second content, whatever the first was. *)
Theorem same_second_same_name_overwrites E req1 req2 f1 f2 now1 now2 σ :
  accepted E req1 f1 now1 -> accepted E req2 f2 now2 ->
  int_of_float now1 = int_of_float now2 ->
  secure_filename E (upload_filename f1) = secure_filename E (upload_filename f2) ->
  filepath_of E f1 now1 = filepath_of E f2 now2
  ∧ files (upload_file E req2 now2 (upload_file E req1 now1 σ).2).2
      !! filepath_of E f1 now1 = Some (upload_content f2).
Proof.
  intros H1 H2 Hsec Hname.
  assert (Hpath : filepath_of E f1 now1 = filepath_of E f2 now2)
    by (unfold filepath_of; by rewrite Hsec, Hname).
  split; [exact Hpath|].
  rewrite (upload_file_accepted E req1 f1 now1 σ H1). cbn [snd].
  rewrite (upload_file_accepted E req2 f2 now2 _ H2). cbn [snd files].
  rewrite Hpath. apply lookup_insert_eq.
Qed.

Lemma same_second_same_name_overwrites_witness :
  files (upload_file sample_env (multipart (Upload "a.mp4" [x62]%byte))
           second_time
           (upload_file sample_env (multipart first_upload) first_time
              empty_state).2).2
    !! "uploads/1700000000_a.mp4" = Some [x62]%byte.
Proof.
  apply (same_second_same_name_overwrites sample_env (multipart first_upload)
           (multipart (Upload "a.mp4" [x62]%byte)) first_upload
           (Upload "a.mp4" [x62]%byte) first_time second_time empty_state).
  - split; [reflexivity|]; repeat split; [discriminate|reflexivity..].
  - split; [reflexivity|]; repeat split; [discriminate|reflexivity..].
  - reflexivity.
  - reflexivity.
Defined.

(** X5. The upload route creates no record: whatever the request, the
    progress and result routes answer after it as they did before it. For an
    id that had no record, a poll made before the thread has run is
    answered 404. *)
Theorem poll_before_thread_runs E req now σ file_id :
  let σ' := (upload_file E req now σ).2 in
  (get_progress file_id σ').1 = (get_progress file_id σ).1
  ∧ (get_results file_id σ').1 = (get_results file_id σ).1
  ∧ (analysis_progress σ !! file_id = None ->
     (get_progress file_id σ').1 = Ret (Response (BError "File not found") 404)).
Proof.
  destruct (upload_file_keeps_records E req now σ) as [Hstore _].
  cbv zeta. unfold get_progress, get_results. rewrite Hstore.
  split; [|split].
  - by destruct (analysis_progress σ !! file_id).
  - destruct (analysis_progress σ !! file_id) as [r|]; [|done].
    by destruct (String.eqb (status r) "complete").
  - by intros ->.
Qed.

Lemma poll_before_thread_runs_witness :
  (get_progress "1700000000"
     (upload_file sample_env (multipart first_upload) first_time
        empty_state).2).1
  = Ret (Response (BError "File not found") 404).
Proof.
  apply (poll_before_thread_runs sample_env (multipart first_upload) first_time
           empty_state "1700000000").
  reflexivity.
Defined.

(** ** Further properties: a run seen from the routes *)

(** The records a run wrote, read back from the log. *)
Lemma run_log E path file_id σ :
  ∃ md h hps fr fps pv,
    perform_full_analysis E path file_id σ =
      (Ret tt, after_writes file_id σ (run_trace md h hps fr fps pv))
    ∧ snd <$> drop (length (writes σ))
                   (writes (perform_full_analysis E path file_id σ).2)
      = run_trace md h hps fr fps pv.
Proof.
  destruct (perform_full_analysis_run E path file_id σ) as (ks & Hrun & _).
  eexists _, _, _, _, _, _. split; [exact Hrun|].
  rewrite Hrun. cbn [snd writes after_writes].
  rewrite drop_app_length, <- list_fmap_compose. apply list_fmap_id.
Qed.

(** X6. Once a run is over, the progress route answers with a complete
    record, and the result route with its results map, which has exactly the
    four keys ['metadata'], ['hash'], ['frames'] and ['preview_frame']. *)
Theorem routes_after_run E path file_id σ :
  ∃ σ' r,
    perform_full_analysis E path file_id σ = (Ret tt, σ')
    ∧ get_progress file_id σ' = (Ret (Response (BRecord r) 200), σ')
    ∧ get_results file_id σ' = (Ret (Response (BResults (results r)) 200), σ')
    ∧ status r = "complete"%string
    ∧ metadata_done r = true
    ∧ dom (results r) =
        list_to_set ["metadata"; "hash"; "frames"; "preview_frame"]%string.
Proof.
  destruct (perform_full_analysis_final E path file_id σ)
    as (σ' & hps & fps & Hrun & _ & _ & Hfin).
  eexists σ', _. split; [exact Hrun|].
  unfold get_progress, get_results. rewrite Hfin.
  repeat split.
Qed.

(** X7. A poll that falls between two writes of a run, after any number [n] of
    its writes but the last, finds the record and a status that is not
    final: the result route answers [{'status': 'not_ready'}], never a
    results map. *)
Theorem polls_during_run E path file_id σ n :
  let trace := snd <$> drop (length (writes σ))
                 (writes (perform_full_analysis E path file_id σ).2) in
  (0 < n < length trace)%nat ->
  let σn := after_writes file_id σ (take n trace) in
  get_results file_id σn = (Ret (Response BNotReady 200), σn)
  ∧ ∃ r, get_progress file_id σn = (Ret (Response (BRecord r) 200), σn)
         ∧ is_terminal (status r) = false.
Proof.
  destruct (run_log E path file_id σ)
    as (md & h & hps & fr & fps & pv & _ & Hlog).
  cbv zeta. rewrite Hlog.
  destruct (run_trace_split md h hps fr fps pv) as (ws & -> & _ & Hws).
  rewrite length_app. cbn [length]. intros Hn.
  rewrite take_app_le by lia.
  destruct (last (take n ws)) as [r|] eqn:Hlast.
  - assert (Hin : r ∈ ws).
    { apply last_Some in Hlast as [l' Hl'].
      eapply elem_of_sublist; [|apply (sublist_take ws n)].
      rewrite Hl'. apply elem_of_app. right. constructor. }
    rewrite Forall_forall in Hws. pose proof (Hws r Hin) as Hr.
    unfold get_results, get_progress.
    rewrite (lookup_after _ _ _ r Hlast).
    unfold is_terminal in Hr. apply orb_false_iff in Hr as [Hc _].
    rewrite Hc. split; [done|]. exists r. split; [done|].
    exact (Hws r Hin).
  - apply last_None in Hlast. apply (f_equal length) in Hlast.
    rewrite length_take in Hlast. simpl in Hlast. lia.
Qed.

Lemma polls_during_run_witness :
  get_results "1700000000"
    (after_writes "1700000000" small_file_state
       (take 7 (snd <$> drop 0
          (writes (perform_full_analysis sample_env "uploads/1700000000_clip.mp4"
                     "1700000000" small_file_state).2))))
  = (Ret (Response BNotReady 200),
     after_writes "1700000000" small_file_state
       (take 7 (snd <$> drop 0
          (writes (perform_full_analysis sample_env "uploads/1700000000_clip.mp4"
                     "1700000000" small_file_state).2)))).
Proof.
  apply (polls_during_run sample_env "uploads/1700000000_clip.mp4" "1700000000"
           small_file_state 7).
  vm_compute. split; apply Nat.ltb_lt; reflexivity.
Defined.

(** X10. A run writes under its own key only: the upload folder and every
    other record are as they were, the log gains entries for this key
    alone, and what was logged before stays. *)
Theorem run_touches_only_its_record E path file_id σ :
  let σ' := (perform_full_analysis E path file_id σ).2 in
  files σ' = files σ
  ∧ delete file_id (analysis_progress σ') = delete file_id (analysis_progress σ)
  ∧ take (length (writes σ)) (writes σ') = writes σ
  ∧ Forall (λ w, w.1 = file_id) (drop (length (writes σ)) (writes σ')).
Proof.
  destruct (perform_full_analysis_run E path file_id σ) as (ks & Hrun & _).
  cbv zeta. rewrite Hrun. cbn [snd files analysis_progress writes after_writes].
  split; [done|]. split.
  - rewrite run_trace_last. apply delete_insert_eq.
  - rewrite take_app_length, drop_app_length. split; [done|].
    apply Forall_fmap, Forall_true. done.
Qed.

(** ** Further properties: what the writes of a run keep true *)

Lemma last_hash_writes (r : progress_record) (hps : list Q) :
  default r (last ((λ p, set_hash_progress p r) <$> hps)) =
    set_hash_progress (default (hash_progress r) (last hps)) r.
Proof. rewrite fmap_last. destruct (last hps), r; reflexivity. Qed.

Lemma last_frame_writes (r : progress_record) (fps : list Q) :
  default r (last ((λ p, set_frame_progress p r) <$> fps)) =
    set_frame_progress (default (frame_progress r) (last fps)) r.
Proof. rewrite fmap_last. destruct (last fps), r; reflexivity. Qed.

Ltac solve_filled :=
  unfold filled_in_order;
  cbn [status metadata_done hash_progress frame_progress results
       set_status set_metadata_done set_hash_progress set_frame_progress
       set_result initial_record];
  repeat split; intros Hyp; try done;
  repeat (rewrite lookup_insert_eq in * || rewrite lookup_insert_ne in * by done
          || rewrite lookup_empty in * );
  try done; try (by eexists); try (by destruct Hyp).

(** X8. Every record a run writes is filled in order: ['metadata'] is stored
    before [metadata_done] is set, [metadata_done] before ['hash'], ['hash']
    before ['frames'], ['frames'] before ['preview_frame']; [hash_progress]
    is 0 until the metadata stage is done and [frame_progress] is 0 until the
    hash result is stored; a record whose status is ['complete'] has its
    preview key, hence all four. *)
Theorem run_fills_in_order E path file_id σ :
  Forall filled_in_order
    (snd <$> drop (length (writes σ))
       (writes (perform_full_analysis E path file_id σ).2)).
Proof.
  destruct (run_log E path file_id σ)
    as (md & h & hps & fr & fps & pv & _ & ->).
  unfold run_trace. rewrite last_hash_writes, last_frame_writes.
  repeat first
    [ apply Forall_app; split
    | apply Forall_cons; split
    | apply Forall_nil
    | apply Forall_fmap, Forall_true; intros p ];
    solve_filled.
Qed.

Lemma StronglySorted_fmap_inv {A B} (R : relation B) (f : A -> B) (l : list A) :
  StronglySorted R (f <$> l) -> StronglySorted (λ a b, R (f a) (f b)) l.
Proof.
  induction l as [|a l IH]; csimpl; intros Hs; [constructor|].
  apply StronglySorted_inv in Hs as [Hs Hall].
  constructor; [by apply IH|]. rewrite Forall_fmap in Hall. exact Hall.
Qed.

Lemma Sorted_replicate_app {A} (R : relation A) `{!Reflexive R} n x l :
  Sorted R (x :: l) -> Sorted R (x :: replicate n x ++ l).
Proof.
  intros Hs. induction n as [|n IH]; [exact Hs|].
  simpl. constructor; [exact IH|]. constructor. reflexivity.
Qed.

(** X9. Along the writes of a run the results map only grows: for any two
    writes the results of the earlier are contained in those of the later, so
    a key once stored is neither removed nor given another value. *)
Theorem run_results_only_grow E path file_id σ :
  StronglySorted (λ w1 w2, results w1 ⊆ results w2)
    (snd <$> drop (length (writes σ))
       (writes (perform_full_analysis E path file_id σ).2)).
Proof.
  destruct (run_log E path file_id σ)
    as (md & h & hps & fr & fps & pv & _ & ->).
  apply (StronglySorted_fmap_inv (⊆) results).
  unfold run_trace. rewrite last_hash_writes, last_frame_writes.
  rewrite !fmap_app, <- !list_fmap_compose.
  set (m1 := <["metadata" := md]> (∅ : gmap string rvalue)).
  set (m2 := <["hash" := h]> m1).
  set (m3 := <["frames" := fr]> m2).
  set (m4 := <["preview_frame" := RPreview pv]> m3).
  rewrite (const_fmap _ hps m1) by reflexivity.
  rewrite (const_fmap _ fps m2) by reflexivity.
  cbn [fmap list_fmap results set_status set_metadata_done set_result
       set_hash_progress set_frame_progress initial_record app].
  fold m1 m2 m3 m4.
  assert (H01 : (∅ : gmap string rvalue) ⊆ m1) by apply map_empty_subseteq.
  assert (H12 : m1 ⊆ m2).
  { apply insert_subseteq. subst m1. by rewrite lookup_insert_ne. }
  assert (H23 : m2 ⊆ m3).
  { apply insert_subseteq. subst m2 m1. by rewrite !lookup_insert_ne. }
  assert (H34 : m3 ⊆ m4).
  { apply insert_subseteq. subst m3 m2 m1. by rewrite !lookup_insert_ne. }
  clearbody m1 m2 m3 m4.
  apply Sorted_StronglySorted; [intros x y z; apply transitivity|].
  do 4 (constructor; [|by constructor]).
  apply Sorted_replicate_app; [apply _|].
  do 2 (constructor; [|by constructor]).
  apply Sorted_replicate_app; [apply _|].
  repeat (constructor; [|by constructor]).
  constructor; constructor.
Qed.

(** ** Further properties: the hash stage *)

Lemma chunk_ends_zero size : 0 < size -> chunk_ends size 0 = [].
Proof.
  intros Hs. unfold chunk_ends.
  replace ((0 + size - 1) / size) with 0; [done|].
  symmetry. apply Z.div_small. lia.
Qed.

Lemma chunk_ends_step size n :
  0 < size -> 0 < n ->
  chunk_ends size n =
    Z.min size n :: ((λ e, Z.min size n + e) <$> chunk_ends size (n - Z.min size n)).
Proof.
  intros Hs Hn. unfold chunk_ends.
  destruct (decide (n <= size)) as [Hle|Hgt].
  - replace ((n + size - 1) / size) with 1.
    2:{ apply Z.div_unique with (r := n - 1); lia. }
    replace (n - Z.min size n) with 0 by lia.
    replace ((0 + size - 1) / size) with 0.
    2:{ symmetry. apply Z.div_small. lia. }
    simpl. f_equal. lia.
  - replace (Z.min size n) with size by lia.
    replace ((n + size - 1) / size) with ((n - size + size - 1) / size + 1).
    2:{ rewrite <- Z.div_add by lia. f_equal. lia. }
    assert (0 <= (n - size + size - 1) / size) by (apply Z.div_pos; lia).
    rewrite Z2Nat.inj_add by lia.
    change (Z.to_nat 1) with 1%nat. rewrite Nat.add_1_r.
    cbn [seq fmap list_fmap]. f_equal; [lia|].
    rewrite <- fmap_S_seq, <- !list_fmap_compose.
    apply list_fmap_ext. intros _ k _. simpl. lia.
Qed.

Lemma hash_loop_writes size id fs f hf processed σ r :
  (0 < size)%nat ->
  analysis_progress σ !! id = Some r ->
  0 <= processed -> processed + Z.of_nat (length f) <= fs ->
  (hash_loop size id fs f hf processed σ).2 =
    after_writes id σ
      ((λ e, set_hash_progress (pct fs (processed + e)) r) <$>
         chunk_ends (Z.of_nat size) (Z.of_nat (length f))).
Proof.
  intros Hsize. revert r.
  funelim (hash_loop size id fs f hf processed σ); intros r Hr Hp Hfs.
  - assert (f = []) as ->.
    { destruct f; [done|]. destruct size; [lia|discriminate]. }
    rewrite chunk_ends_zero by lia. by rewrite after_writes_nil.
  - clear Heqcall H0.
    match goal with
    | |- context [Py.div_int _ ?z] => rename z into total
    end.
    assert (Hf : f = (b :: bs) ++ drop size f).
    { rewrite <- Hchunk. symmetry. apply take_drop. }
    assert (Hchunk_len : Z.of_nat (length (b :: bs)) =
                         Z.min (Z.of_nat size) (Z.of_nat (length f))).
    { rewrite <- Hchunk, length_take. lia. }
    assert (Hpos : 0 < Z.of_nat (length f)).
    { rewrite Hf, length_app. simpl. lia. }
    assert (Hrest : Z.of_nat (length (drop size f)) =
                    Z.of_nat (length f)
                    - Z.min (Z.of_nat size) (Z.of_nat (length f))).
    { rewrite length_drop. lia. }
    rewrite (chunk_ends_step (Z.of_nat size) (Z.of_nat (length f))) by lia.
    rewrite <- Hrest, <- Hchunk_len.
    set (k1 := processed + Z.of_nat (length (b :: bs))) in *.
    unfold mbind, M_bind, lift. rewrite div_pos_run by lia.
    rewrite (set_item_run _ _ _ r Hr). fold (pct total k1).
    rewrite (H (pct total k1) tt
               (after_writes file_id σ [set_hash_progress (pct total k1) r])
               Hsize (set_hash_progress (pct total k1) r)).
    + rewrite after_writes_app. f_equal. cbn [fmap list_fmap app]. f_equal.
      rewrite <- list_fmap_compose. apply list_fmap_ext. intros _ e _. cbn beta. unfold compose.
      unfold set_hash_progress.
      cbn [status metadata_done frame_progress results]. do 2 f_equal.
      subst k1. lia.
    + by rewrite (after_writes_lookup _ _ _ r Hr).
    + subst k1. lia.
    + subst k1. lia.
Qed.

Lemma hash_loop_missing size id fs f hf processed σ :
  (0 < size)%nat ->
  analysis_progress σ !! id = None -> f ≠ [] ->
  0 <= processed -> processed + Z.of_nat (length f) <= fs ->
  hash_loop size id fs f hf processed σ = (Raise (Py.repr id), σ).
Proof.
  intros Hsize.
  funelim (hash_loop size id fs f hf processed σ); intros Hr Hne Hp Hfs.
  - exfalso. apply Hne. destruct f; [done|]. destruct size; [lia|discriminate].
  - clear Heqcall H H0.
    assert (Hpos : 0 < Z.of_nat (length f)) by (destruct f; [done|simpl; lia]).
    unfold mbind, M_bind, lift. rewrite div_pos_run by lia.
    unfold set_item, mbind, M_bind, get_record. by rewrite Hr.
Qed.

(** X11. The hash stage writes once per chunk of 8192 bytes read: for a file
    of [n] bytes it makes ceil(n / 8192) writes, the [i]-th of them sets
    [hash_progress] to the share of min(8192 * i, n) in [n] and changes no
    other field. For a file that is not empty the last write sets exactly
    100. *)
Theorem hash_stage_one_write_per_chunk path file_id σ r content :
  analysis_progress σ !! file_id = Some r ->
  files σ !! path = Some content ->
  let n := Z.of_nat (length content) in
  let ends := chunk_ends 8192 n in
  (calculate_file_hash path file_id σ).2 =
    after_writes file_id σ ((λ k, set_hash_progress (pct n k) r) <$> ends)
  ∧ Z.of_nat (length ends) = (n + 8191) / 8192
  ∧ (∀ i : nat, (i < length ends)%nat ->
       ends !! i = Some (Z.min (8192 * (Z.of_nat i + 1)) n))
  ∧ (content ≠ [] ->
     ∃ p, analysis_progress (calculate_file_hash path file_id σ).2 !! file_id =
            Some (set_hash_progress p r)
          ∧ (p == 100)%Q).
Proof.
  intros Hr Hfile n ends.
  assert (Hrun : (calculate_file_hash path file_id σ).2 =
                 after_writes file_id σ
                   ((λ k, set_hash_progress (pct n k) r) <$> ends)).
  { unfold calculate_file_hash, try_except, getsize, read_file, get_files.
    unfold mbind, M_bind, mret, M_ret, lift.
    rewrite Hfile. cbn beta iota. rewrite ?Hfile. cbn beta iota. fold n.
    pose proof (hash_loop_writes chunk_size file_id n content [] 0 σ r
                  chunk_size_pos Hr) as Hw.
    specialize (Hw ltac:(lia) ltac:(subst n; lia)).
    change (Z.of_nat chunk_size) with 8192 in Hw.
    cbn [Z.add] in Hw. fold n ends in Hw.
    destruct (hash_loop chunk_size file_id n content [] 0 σ) as [[x|e] σ1];
      cbn [snd] in Hw |- *; subst σ1; reflexivity. }
  assert (Hn : 0 <= (n + 8192 - 1) / 8192) by (apply Z.div_pos; lia).
  split; [exact Hrun|]. split; [|split].
  - subst ends. unfold chunk_ends. rewrite length_fmap, length_seq.
    rewrite Z2Nat.id by done. f_equal. lia.
  - intros i Hi. subst ends. unfold chunk_ends in *.
    rewrite length_fmap, length_seq in Hi.
    rewrite list_lookup_fmap, lookup_seq_lt by done. reflexivity.
  - intros Hne. rewrite Hrun.
    assert (Hpos : 0 < n) by (subst n; destruct content; [done|simpl; lia]).
    assert (Hlast : last ends = Some n).
    { subst ends. unfold chunk_ends.
      assert (Hc : 1 <= (n + 8192 - 1) / 8192).
      { apply Z.div_le_lower_bound; lia. }
      destruct (Z.to_nat ((n + 8192 - 1) / 8192)) as [|c] eqn:Ec; [lia|].
      rewrite seq_S, fmap_app. cbn [fmap list_fmap]. rewrite last_snoc.
      f_equal.
      assert (n <= 8192 * (Z.of_nat c + 1)); [|lia].
      replace (Z.of_nat c + 1) with ((n + 8192 - 1) / 8192) by lia.
      pose proof (Z.mul_succ_div_gt (n + 8192 - 1) 8192). lia. }
    exists (pct n n). split; [|by apply pct_full].
    apply lookup_after. by rewrite fmap_last, Hlast.
Qed.

Lemma hash_stage_one_write_per_chunk_witness :
  (calculate_file_hash "uploads/1700000000_clip.mp4" "1700000000"
     small_file_state).2 =
    after_writes "1700000000" small_file_state
      [set_hash_progress (pct 3 3) initial_record].
Proof.
  exact (proj1 (hash_stage_one_write_per_chunk "uploads/1700000000_clip.mp4"
                  "1700000000" small_file_state initial_record
                  [x61; x62; x63]%byte eq_refl eq_refl)).
Defined.

(** X12. With no record under [file_id], the hash stage of a file that is not
    empty fails at its first progress write: the [KeyError] is caught and the
    stage returns an error value that ends in the [repr] of the key, leaving
    the state as it was. A path that names no file fails earlier, in
    [getsize], whether there is a record or not. For a key made by [str] of
    an integer, as [upload_file] makes them, the [repr] is the key between
    apostrophes. *)
Theorem hash_stage_unknown_id path file_id σ :
  analysis_progress σ !! file_id = None ->
  (∀ content, files σ !! path = Some content -> content ≠ [] ->
     calculate_file_hash path file_id σ =
       (Ret (RError ("Error calculating hash: " +:+ Py.repr file_id)), σ))
  ∧ (files σ !! path = None ->
     calculate_file_hash path file_id σ =
       (Ret (RError ("Error calculating hash: " +:+ no_such_file path)), σ))
  ∧ (∀ z, file_id = str_int z ->
          Py.repr file_id = ("'" +:+ file_id +:+ "'")%string).
Proof.
  intros Hr. split.
  - intros content Hfile Hne.
    unfold calculate_file_hash, try_except, getsize, read_file, get_files.
    unfold mbind, M_bind, mret, M_ret, lift.
    rewrite Hfile. cbn beta iota. rewrite ?Hfile. cbn beta iota.
    rewrite hash_loop_missing; [done|apply chunk_size_pos|done|done|lia|lia].
  - split.
    + intros Hfile.
      unfold calculate_file_hash, try_except, getsize, read_file, get_files.
      unfold mbind, M_bind, mret, M_ret, lift. by rewrite Hfile.
    + intros z ->. apply repr_plain, str_int_plain.
Qed.

Lemma hash_stage_unknown_id_witness :
  calculate_file_hash "uploads/1700000000_clip.mp4" "1700000000"
    unregistered_state =
    (Ret (RError "Error calculating hash: '1700000000'"), unregistered_state).
Proof.
  apply (proj1 (hash_stage_unknown_id "uploads/1700000000_clip.mp4"
                  "1700000000" unregistered_state eq_refl)
           [x61; x62; x63]%byte eq_refl).
  discriminate.
Defined.

(** ** Further properties: the frame stage *)

Lemma pct_le_iff total a b :
  0 < total -> (pct total a <= pct total b)%Q ↔ a <= b.
Proof.
  intros Ht. destruct total as [|p|p]; try lia.
  unfold pct, Qle, Qdiv, Qmult, Qinv, inject_Z. cbn [Qnum Qden].
  rewrite !Pos.mul_1_l, !Z.mul_1_r, !Pos2Z.inj_mul. nia.
Qed.

Lemma pct_lt_iff total a b :
  0 < total -> (pct total a < pct total b)%Q ↔ a < b.
Proof.
  intros Ht. destruct total as [|p|p]; try lia.
  unfold pct, Qlt, Qdiv, Qmult, Qinv, inject_Z. cbn [Qnum Qden].
  rewrite !Pos.mul_1_l, !Z.mul_1_r, !Pos2Z.inj_mul. nia.
Qed.

Lemma pct_scale total c :
  0 < total -> (pct total (c * total) == inject_Z (c * 100))%Q.
Proof.
  intros Ht. destruct total as [|p|p]; try lia.
  unfold pct, Qeq, Qdiv, Qmult, Qinv, inject_Z. cbn [Qnum Qden].
  rewrite !Pos.mul_1_l, !Z.mul_1_r, !Pos2Z.inj_mul. nia.
Qed.

Lemma decode_prefix_length cap points :
  (length (decode_prefix cap points) <= length points)%nat.
Proof.
  induction points as [|n rest IH]; simpl; [lia|].
  destruct (cap_read cap n); simpl; lia.
Qed.

Lemma sampled_length cap limit :
  limit <= 1000 -> (length (sampled cap 0 limit) <= 100)%nat.
Proof.
  intros Hl. unfold sampled.
  etransitivity; [apply decode_prefix_length|].
  unfold sample_points. rewrite length_fmap, length_seq.
  assert ((limit - 0 + 9) / 10 <= 100); [|lia].
  assert ((limit - 0 + 9) / 10 < 101); [|lia].
  apply Z.div_lt_upper_bound; lia.
Qed.

Lemma sampled_elem cap limit s :
  s ∈ sampled cap 0 limit ->
  ∃ k : nat, s.1 = 10 * Z.of_nat k ∧ s.1 < limit.
Proof.
  destruct s as [n b]. intros Hin.
  apply decode_prefix_elem in Hin as [Hin _].
  apply elem_of_sample_points in Hin as (k & -> & Hk).
  exists k. simpl. split; lia.
Qed.

Lemma StronglySorted_lookup_lt {A} (R : relation A) (l : list A) i j x y :
  StronglySorted R l -> l !! i = Some x -> l !! j = Some y -> (i < j)%nat ->
  R x y.
Proof.
  intros Hs. revert i j. induction Hs as [|a l Hs IH Hall]; intros i j Hi Hj Hij.
  - done.
  - destruct j as [|j]; [lia|]. destruct i as [|i].
    + simpl in Hi, Hj. injection Hi as <-.
      rewrite Forall_forall in Hall. apply Hall.
      eapply list_elem_of_lookup_2, Hj.
    + simpl in Hi, Hj. apply (IH i j); [done|done|lia].
Qed.

Lemma frame_loop_missing cap id limit dark bright normal fn σ :
  analysis_progress σ !! id = None -> 0 <= fn ->
  frame_loop cap id limit dark bright normal fn σ =
    (match sampled cap fn limit with
     | [] => Ret (dark, bright, normal)
     | _ :: _ => Raise (Py.repr id)
     end, σ).
Proof.
  funelim (frame_loop cap id limit dark bright normal fn σ); intros Hr Hfn.
  - by rewrite sampled_done.
  - clear Heqcall H. rewrite (sampled_step _ _ _ img) by done.
    destruct (Qltb (mean img) 30); [|destruct (Qltb 200 (mean img))];
      unfold mbind, M_bind, lift;
      rewrite div_pos_run by lia;
      unfold set_item, mbind, M_bind, get_record; by rewrite Hr.
  - by rewrite sampled_stop.
Qed.

Lemma analyze_video_frames_missing E path file_id σ :
  analysis_progress σ !! file_id = None ->
  let cap := video_capture E (files σ !! path) in
  analyze_video_frames E path file_id σ =
    (Ret (match sampled cap 0 (analysis_limit_of cap) with
          | [] => frames_result cap []
          | _ :: _ => RError ("Error analyzing frames: " +:+ Py.repr file_id)
          end), σ).
Proof.
  intros Hr cap. unfold analyze_video_frames.
  cbv [try_except mbind M_bind get_files lift mret M_ret].
  fold cap. fold (analysis_limit_of cap).
  rewrite (frame_loop_missing cap file_id _ [] [] 0 0 σ Hr) by lia.
  destruct (sampled cap 0 (analysis_limit_of cap)); [|reflexivity].
  cbv beta iota zeta. unfold frames_result.
  destruct (Py.div_float (inject_Z (cap_frame_count cap)) (cap_fps cap));
    reflexivity.
Qed.

(** X13. With no record under [file_id], the frame stage fails at the first
    progress write when the first frame decodes: the [KeyError] is caught and
    the stage returns an error value that ends in the [repr] of the key.
    When there is no frame to sample it writes nothing and returns as it
    does for a known id. Either way the state is left as it was. For a key
    made by [str] of an integer the [repr] is the key between
    apostrophes. *)
Theorem frame_stage_unknown_id E path file_id σ :
  analysis_progress σ !! file_id = None ->
  let cap := video_capture E (files σ !! path) in
  (0 < cap_frame_count cap -> is_Some (cap_read cap 0) ->
   analyze_video_frames E path file_id σ =
     (Ret (RError ("Error analyzing frames: " +:+ Py.repr file_id)), σ))
  ∧ (cap_frame_count cap <= 0 ∨ cap_read cap 0 = None ->
     analyze_video_frames E path file_id σ = (Ret (frames_result cap []), σ))
  ∧ (∀ z, file_id = str_int z ->
          Py.repr file_id = ("'" +:+ file_id +:+ "'")%string).
Proof.
  intros Hr cap.
  rewrite (analyze_video_frames_missing E path file_id σ Hr). fold cap.
  unfold analysis_limit_of. split; [|split].
  - intros Hcount [img Himg].
    rewrite (sampled_step _ _ _ img) by (done || lia). reflexivity.
  - intros [Hcount|Hread].
    + rewrite sampled_done by lia. reflexivity.
    + destruct (decide (0 < Z.min (cap_frame_count cap) 1000)).
      * rewrite sampled_stop by done. reflexivity.
      * rewrite sampled_done by done. reflexivity.
  - intros z ->. apply repr_plain, str_int_plain.
Qed.

Lemma frame_stage_unknown_id_witness :
  analyze_video_frames sample_env "uploads/1700000000_clip.mp4" "1700000000"
    unregistered_state =
    (Ret (RError "Error analyzing frames: '1700000000'"), unregistered_state).
Proof.
  apply (proj1 (frame_stage_unknown_id sample_env "uploads/1700000000_clip.mp4"
                  "1700000000" unregistered_state eq_refl)).
  - reflexivity.
  - by eexists.
Defined.

(** X14. The frame stage never samples more than 100 frames, whatever the
    length of the video: it makes at most one progress write per sample, and
    the three counts of a frame result add up to at most 100. *)
Theorem frame_stage_at_most_100_samples E path file_id σ :
  let cap := video_capture E (files σ !! path) in
  let samples := sampled cap 0 (analysis_limit_of cap) in
  (length samples <= 100)%nat
  ∧ (∃ extra,
       writes (analyze_video_frames E path file_id σ).2 = writes σ ++ extra
       ∧ (length extra <= length samples)%nat
       ∧ Forall (λ w, w.1 = file_id) extra)
  ∧ (∀ f σ',
       analyze_video_frames E path file_id σ = (Ret (RFrames f), σ') ->
       dark_count (summary f) + bright_count (summary f)
       + normal_count (summary f) <= 100).
Proof.
  intros cap samples.
  assert (Hlen : (length samples <= 100)%nat).
  { apply sampled_length. unfold analysis_limit_of. lia. }
  split; [exact Hlen|]. split.
  - destruct (analysis_progress σ !! file_id) as [r|] eqn:Hr.
    + rewrite (analyze_video_frames_run E path file_id σ r Hr).
      cbn [snd writes after_writes]. eexists. split; [reflexivity|].
      fold cap samples. rewrite !length_fmap. split; [done|].
      apply Forall_fmap, Forall_true. done.
    + exists []. rewrite app_nil_r. split; [|split; [simpl; lia|constructor]].
      by rewrite (analyze_video_frames_missing E path file_id σ Hr).
  - intros f σ' Hrun. apply analyze_video_frames_ret in Hrun.
    cbv zeta in Hrun. fold cap samples in Hrun. unfold frames_result in Hrun.
    destruct (Py.div_float _ _); [|discriminate].
    injection Hrun as ->. cbn [summary dark_count bright_count normal_count].
    rewrite !length_fmap. pose proof (classes_partition samples). lia.
Qed.

Lemma pct_pos total k : 0 < total -> 0 < k -> (0 < pct total k)%Q.
Proof.
  intros Ht Hk. apply Qle_lt_trans with (pct total 0).
  - rewrite pct_zero. apply Qle_refl.
  - by apply pct_lt_iff.
Qed.

Lemma pct_lt_100 total k : 0 < total -> k < total -> (pct total k < 100)%Q.
Proof.
  intros Ht Hk. apply Qlt_le_trans with (pct total total).
  - by apply pct_lt_iff.
  - rewrite pct_full by done. apply Qle_refl.
Qed.

Lemma pct_le_100 total k : 0 < total -> k <= total -> (pct total k <= 100)%Q.
Proof.
  intros Ht Hk. rewrite <- (pct_full total Ht). by apply pct_le_iff.
Qed.

Lemma pct_gt_100 total k : 0 < total -> total < k -> (100 < pct total k)%Q.
Proof.
  intros Ht Hk. apply Qle_lt_trans with (pct total total).
  - rewrite pct_full by done. apply Qle_refl.
  - by apply pct_lt_iff.
Qed.

Lemma sampled_consecutive cap limit i s s' :
  sampled cap 0 limit !! i = Some s ->
  sampled cap 0 limit !! S i = Some s' ->
  s.1 + 10 <= s'.1.
Proof.
  intros Hi Hj.
  destruct (sampled_elem cap limit s) as (k & Hk & _);
    [by eapply list_elem_of_lookup_2|].
  destruct (sampled_elem cap limit s') as (k' & Hk' & _);
    [by eapply list_elem_of_lookup_2|].
  assert (s.1 < s'.1); [|lia].
  apply (StronglySorted_lookup_lt Z.lt (sampled cap 0 limit).*1 i (S i)).
  - apply sampled_sorted.
  - by rewrite list_lookup_fmap, Hi.
  - by rewrite list_lookup_fmap, Hj.
  - lia.
Qed.

(** X15. Every percentage the frame stage writes lies in (0, 1000]. Every
    write but the last is below 100; the last may exceed it, and does not
    when the number of frames analysed is a multiple of 10. *)
Theorem frame_progress_bounds E path file_id σ r :
  analysis_progress σ !! file_id = Some r ->
  let cap := video_capture E (files σ !! path) in
  let analysis_limit := Z.min (cap_frame_count cap) 1000 in
  ∃ ps,
    (analyze_video_frames E path file_id σ).2 =
      after_writes file_id σ ((λ p, set_frame_progress p r) <$> ps)
    ∧ Forall (λ p, (0 < p)%Q ∧ (p <= 1000)%Q) ps
    ∧ (∀ (i : nat) p, ps !! i = Some p -> (S i < length ps)%nat ->
         (p < 100)%Q)
    ∧ (analysis_limit mod 10 = 0 -> Forall (λ p, (p <= 100)%Q) ps).
Proof.
  intros Hr cap limit.
  rewrite (analyze_video_frames_run E path file_id σ r Hr). cbv zeta.
  fold cap. unfold analysis_limit_of. fold limit.
  set (samples := sampled cap 0 limit).
  exists ((λ s, pct limit (s.1 + 10)) <$> samples).
  split; [by rewrite <- list_fmap_compose|].
  assert (Hpos : ∀ s, s ∈ samples -> 0 < limit).
  { intros s Hs. apply sampled_elem in Hs as (k & Hk & Hlt). lia. }
  split; [|split].
  - apply Forall_fmap, Forall_forall. intros s Hs. cbn beta.
    pose proof (Hpos s Hs) as Hl.
    apply sampled_elem in Hs as (k & Hk & Hlt). split.
    + apply pct_pos; lia.
    + change 1000%Q with (inject_Z (10 * 100)).
      rewrite <- (pct_scale limit 10 Hl). apply pct_le_iff; lia.
  - intros i p Hi Hlen. rewrite length_fmap in Hlen.
    rewrite list_lookup_fmap in Hi.
    destruct (samples !! i) as [s|] eqn:Hs; [|done].
    injection Hi as <-.
    destruct (lookup_lt_is_Some_2 samples (S i) Hlen) as [s' Hs'].
    pose proof (sampled_consecutive cap limit i s s' Hs Hs') as Hstep.
    assert (Hin' : s' ∈ samples) by (by eapply list_elem_of_lookup_2).
    pose proof (Hpos s' Hin') as Hl.
    apply sampled_elem in Hin' as (k' & _ & Hlt').
    apply pct_lt_100; lia.
  - intros Hmod. apply Forall_fmap, Forall_forall. intros s Hs. cbn beta.
    pose proof (Hpos s Hs) as Hl.
    apply sampled_elem in Hs as (k & Hk & Hlt).
    unfold compose. apply pct_le_100; [done|].
    apply Z.mod_divide in Hmod as [m Hm]; lia.
Qed.

Lemma frame_progress_bounds_witness :
  ∃ ps,
    (analyze_video_frames sample_env "uploads/1700000000_clip.mp4"
       "1700000000" small_file_state).2 =
      after_writes "1700000000" small_file_state
        ((λ p, set_frame_progress p initial_record) <$> ps)
    ∧ Forall (λ p, (0 < p)%Q ∧ (p <= 1000)%Q) ps.
Proof.
  destruct (frame_progress_bounds sample_env "uploads/1700000000_clip.mp4"
              "1700000000" small_file_state initial_record eq_refl)
    as (ps & Hrun & Hall & _).
  exists ps. split; [exact Hrun|exact Hall].
Defined.

Lemma last_sample_point limit :
  0 < limit ->
  last (sample_points 0 limit) = Some (10 * ((limit + 9) / 10) - 10).
Proof.
  intros Hl. unfold sample_points. rewrite Z.sub_0_r.
  assert (Hc : 1 <= (limit + 9) / 10) by (apply Z.div_le_lower_bound; lia).
  destruct (Z.to_nat ((limit + 9) / 10)) as [|c] eqn:Ec; [lia|].
  rewrite seq_S, fmap_app. cbn [fmap list_fmap]. rewrite last_snoc.
  f_equal. lia.
Qed.

(** X16. When every sampled position decodes, the frame stage leaves
    [frame_progress] at the share of the first multiple of 10 that is not
    below the number of frames analysed, and changes no other field: the
    value is 100 when that number is a multiple of 10 and above 100 when it
    is not. *)
Theorem frame_progress_final E path file_id σ r :
  analysis_progress σ !! file_id = Some r ->
  let cap := video_capture E (files σ !! path) in
  let analysis_limit := Z.min (cap_frame_count cap) 1000 in
  0 < analysis_limit ->
  (∀ n, 0 <= n < analysis_limit -> n mod 10 = 0 -> is_Some (cap_read cap n)) ->
  ∃ p,
    analysis_progress (analyze_video_frames E path file_id σ).2 !! file_id =
      Some (set_frame_progress p r)
    ∧ (p == pct analysis_limit (10 * ((analysis_limit + 9) / 10)))%Q
    ∧ (analysis_limit mod 10 = 0 -> (p == 100)%Q)
    ∧ (analysis_limit mod 10 ≠ 0 -> (100 < p)%Q).
Proof.
  intros Hr cap limit Hl Hall.
  rewrite (analyze_video_frames_run E path file_id σ r Hr). cbv zeta.
  fold cap. unfold analysis_limit_of. fold limit.
  set (samples := sampled cap 0 limit).
  assert (Hpts : samples.*1 = sample_points 0 limit).
  { apply decode_prefix_all, Forall_forall. intros n Hn.
    apply elem_of_sample_points in Hn as (k & -> & Hk).
    apply Hall; [lia|].
    rewrite Z.add_0_l, Z.mul_comm. apply Z.mod_mul. lia. }
  assert (Hlast : fst <$> last samples = Some (10 * ((limit + 9) / 10) - 10)).
  { rewrite <- fmap_last. fold (samples.*1). rewrite Hpts.
    by apply last_sample_point. }
  destruct (last samples) as [s|] eqn:Hs; [|done].
  injection Hlast as Hs1.
  exists (pct limit (s.1 + 10)). split.
  { apply lookup_after. by rewrite fmap_last, Hs. }
  rewrite Hs1. replace (10 * ((limit + 9) / 10) - 10 + 10)
    with (10 * ((limit + 9) / 10)) by lia.
  split; [reflexivity|]. split.
  - intros Hmod.
    replace (10 * ((limit + 9) / 10)) with limit; [by apply pct_full|].
    apply Z.mod_divide in Hmod as [m ->]; [|lia].
    replace (m * 10 + 9) with (9 + m * 10) by lia.
    rewrite Z.div_add by lia. change (9 / 10) with 0. lia.
  - intros Hmod. apply pct_gt_100; [done|].
    pose proof (Z.div_mod limit 10 ltac:(lia)) as Hdm.
    pose proof (Z.mod_pos_bound limit 10 ltac:(lia)) as Hb.
    assert (limit / 10 + 1 <= (limit + 9) / 10); [|lia].
    apply Z.div_le_lower_bound; lia.
Qed.

Lemma frame_progress_final_witness :
  ∃ p,
    analysis_progress
      (analyze_video_frames sample_env "uploads/1700000000_clip.mp4"
         "1700000000" small_file_state).2 !! "1700000000" =
      Some (set_frame_progress p initial_record)
    ∧ (100 < p)%Q.
Proof.
  destruct (frame_progress_final sample_env "uploads/1700000000_clip.mp4"
              "1700000000" small_file_state initial_record eq_refl)
    as (p & Hlook & _ & _ & Hover).
  - reflexivity.
  - intros n Hn Hmod.
    assert (Hn5 : 0 <= n < 5) by exact Hn.
    assert (n = 0) as -> by (rewrite Z.mod_small in Hmod; lia).
    by eexists.
  - exists p. split; [exact Hlook|]. apply Hover. discriminate.
Defined.

(** X17. A capture that reports a zero frame rate makes the frame stage fail
    at the very end: every sample has been read and every progress write
    made when the duration is computed, and the stage returns the error
    value of the division instead of the counts. A file OpenCV cannot open
    reports no frame and a zero rate, and gets this error too. *)
Theorem zero_frame_rate_discards_the_samples E path file_id σ r :
  analysis_progress σ !! file_id = Some r ->
  let cap := video_capture E (files σ !! path) in
  let analysis_limit := Z.min (cap_frame_count cap) 1000 in
  let samples := sampled cap 0 analysis_limit in
  (cap_fps cap == 0)%Q ->
  analyze_video_frames E path file_id σ =
    (Ret (RError "Error analyzing frames: float division by zero"),
     after_writes file_id σ
       ((λ s, set_frame_progress (pct analysis_limit (s.1 + 10)) r) <$>
          samples)).
Proof.
  intros Hr cap limit samples Hfps.
  rewrite (analyze_video_frames_run E path file_id σ r Hr). cbv zeta.
  fold cap. unfold analysis_limit_of. fold limit samples.
  unfold frames_result, Py.div_float.
  apply Qeq_bool_iff in Hfps. by rewrite Hfps.
Qed.

Lemma zero_frame_rate_discards_the_samples_witness :
  (analyze_video_frames no_rate_env "uploads/1700000000_clip.mp4" "1700000000"
     small_file_state).1 =
    Ret (RError "Error analyzing frames: float division by zero")
  ∧ length (writes (analyze_video_frames no_rate_env
                      "uploads/1700000000_clip.mp4" "1700000000"
                      small_file_state).2) = 3%nat.
Proof.
  rewrite (zero_frame_rate_discards_the_samples no_rate_env
             "uploads/1700000000_clip.mp4" "1700000000" small_file_state
             initial_record eq_refl); [|reflexivity].
  split; reflexivity.
Defined.

(** ** Further properties: the metadata extractor and the preview *)

Lemma foldl_add_track_last tracks :
  foldl add_track (None, None) tracks =
    (video_of_track <$> last_of_type "Video" tracks,
     audio_of_track <$> last_of_type "Audio" tracks).
Proof.
  unfold last_of_type.
  induction tracks as [|t tracks IH] using rev_ind; [reflexivity|].
  rewrite foldl_app, IH. cbn [foldl]. unfold add_track. cbn [fst snd].
  rewrite !filter_app, !filter_cons, !filter_nil.
  destruct (String.eqb_spec (t_track_type t) "Video") as [Hv|Hv].
  - rewrite Hv. rewrite decide_True by done. rewrite decide_False by done.
    by rewrite last_snoc, app_nil_r.
  - rewrite (decide_False (P := t_track_type t = "Video"%string)) by done.
    destruct (String.eqb_spec (t_track_type t) "Audio") as [Ha|Ha].
    + rewrite decide_True by done. by rewrite last_snoc, app_nil_r.
    + rewrite decide_False by done. by rewrite !app_nil_r.
Qed.

(** X18. When the parse has several video tracks, or several audio tracks,
    [extract_metadata] reports the last of each type: every such track
    overwrites the block of the one before it. *)
Theorem metadata_last_track_wins E path σ tracks :
  mediainfo_parse E (files σ !! path) = Ret tracks ->
  ¬ Forall other_track tracks ->
  extract_metadata E path σ =
    (Ret (RMetadata (video_of_track <$> last_of_type "Video" tracks)
                    (audio_of_track <$> last_of_type "Audio" tracks)), σ).
Proof.
  intros Hparse Hsome. rewrite extract_metadata_run, Hparse.
  unfold metadata_result.
  pose proof (foldl_add_track tracks) as (_ & _ & Hnone). cbv zeta in Hnone.
  rewrite foldl_add_track_last in *.
  destruct (last_of_type "Video" tracks), (last_of_type "Audio" tracks);
    try reflexivity.
  exfalso. apply Hsome, Hnone. reflexivity.
Qed.

Lemma metadata_last_track_wins_witness :
  extract_metadata sample_env "uploads/1700000000_clip.mp4" small_file_state =
    (Ret (RMetadata (Some (video_of_track sample_video_track)) None),
     small_file_state).
Proof.
  apply (metadata_last_track_wins sample_env "uploads/1700000000_clip.mp4"
           small_file_state [sample_video_track] eq_refl).
  intros H. apply Forall_inv in H. destruct H as [H _]. by apply H.
Defined.

(** X19. [get_video_frame] never raises and never changes the state. It
    returns the encoded frame when the frame is read and encoded, and [None]
    in the two other cases: the read fails, or the encoder raises. *)
Theorem get_video_frame_never_raises E path frame_number σ :
  let cap := video_capture E (files σ !! path) in
  ∃ v,
    get_video_frame E path frame_number σ = (Ret v, σ)
    ∧ (∀ s, v = Some s ↔
            ∃ img, cap_read cap frame_number = Some img
                   ∧ preview_jpeg img = Ret s)
    ∧ (v = None ↔
       cap_read cap frame_number = None
       ∨ ∃ img e, cap_read cap frame_number = Some img
                  ∧ preview_jpeg img = Raise e).
Proof.
  intros cap. rewrite get_video_frame_run. fold cap. unfold preview_result.
  eexists. split; [reflexivity|].
  destruct (cap_read cap frame_number) as [img|] eqn:Hread.
  - destruct (preview_jpeg img) as [s0|e] eqn:Hjpeg; split.
    + intros s. split.
      * intros [= <-]. by exists img.
      * intros (img' & [= <-] & Hs). congruence.
    + split; [done|]. intros [?|(img' & e & [= <-] & He)]; congruence.
    + intros s. split; [done|]. intros (img' & [= <-] & Hs). congruence.
    + split; [|done]. intros _. right. by exists img, e.
  - split.
    + intros s. split; [done|]. intros (img & ? & _). done.
    + split; [|done]. intros _. by left.
Qed.

(** ** Further properties: the statuses of a run *)

Lemma sorted_in_range_length (ks : list Z) (a b : Z) :
  a <= b -> StronglySorted Z.lt ks -> Forall (λ k, a < k <= b) ks ->
  Z.of_nat (length ks) <= b - a.
Proof.
  intros Hab Hs. revert a Hab.
  induction Hs as [|k ks Hs IH Hlt]; intros a Hab Hall; [simpl; lia|].
  apply Forall_cons in Hall as [Hk Hall].
  assert (Z.of_nat (length ks) <= b - k); [|simpl; lia].
  apply IH; [lia|].
  rewrite Forall_forall in Hlt, Hall |- *. intros x Hx.
  specialize (Hlt x Hx). specialize (Hall x Hx). lia.
Qed.

(** X20. The statuses a run writes go through the five phases in order:
    ['running'] once, ['Extracting metadata...'] three times, ['Calculating
    file hash...'] twice and once more per chunk hashed, ['Analyzing video
    frames...'] three times and once more per frame sampled, then
    ['complete']. No write carries an error status: whatever the libraries
    do, the [except] clause of [perform_full_analysis] is not entered. *)
Theorem run_status_sequence E path file_id σ :
  let found := files σ !! path in
  let cap := video_capture E found in
  let samples := sampled cap 0 (analysis_limit_of cap) in
  let trace :=
    snd <$> drop (length (writes σ))
              (writes (perform_full_analysis E path file_id σ).2) in
  ∃ chunks : nat,
    status <$> trace =
      ["running"] ++ replicate 3 "Extracting metadata..."
      ++ replicate (2 + chunks) "Calculating file hash..."
      ++ replicate (3 + length samples) "Analyzing video frames..."
      ++ ["complete"]%string
    ∧ Z.of_nat chunks <= size_of found
    ∧ Forall (λ w, is_error (status w) = false) trace.
Proof.
  intros found cap samples trace.
  destruct (perform_full_analysis_run E path file_id σ)
    as (ks & Hrun & Hsorted & Hall & _).
  cbv zeta in Hrun, Hall. fold found cap samples in Hrun, Hall.
  assert (Htrace : trace = run_trace
            (metadata_result (mediainfo_parse E found))
            (hash_result path found) (pct (size_of found) <$> ks)
            (frames_result cap samples)
            ((λ s, pct (analysis_limit_of cap) (s.1 + 10)) <$> samples)
            (preview_result cap 0)).
  { subst trace. rewrite Hrun. cbn [snd writes after_writes].
    rewrite drop_app_length, <- list_fmap_compose. apply list_fmap_id. }
  assert (Hstatus : status <$> trace =
      ["running"] ++ replicate 3 "Extracting metadata..."
      ++ replicate (2 + length ks) "Calculating file hash..."
      ++ replicate (3 + length samples) "Analyzing video frames..."
      ++ ["complete"]%string).
  { rewrite Htrace. unfold run_trace.
    rewrite last_hash_writes, last_frame_writes.
    rewrite !fmap_app, <- !list_fmap_compose.
    rewrite (const_fmap _ ks "Calculating file hash..."%string)
      by reflexivity.
    rewrite (const_fmap _ samples "Analyzing video frames..."%string)
      by reflexivity.
    replace (2 + length ks)%nat with (S (length ks + 1)) by lia.
    replace (3 + length samples)%nat with (S (length samples + 2)) by lia.
    rewrite !replicate_S, !replicate_add.
    cbn [fmap list_fmap app replicate status set_status set_result
         set_metadata_done set_hash_progress set_frame_progress
         initial_record].
    rewrite <- ?app_assoc. reflexivity. }
  exists (length ks). split; [exact Hstatus|]. split.
  - pose proof (sorted_in_range_length ks 0 (size_of found)) as Hlen.
    rewrite Z.sub_0_r in Hlen. apply Hlen; [unfold size_of; lia|done..].
  - assert (Hno : Forall (λ s, is_error s = false) (status <$> trace)).
    { rewrite Hstatus.
      repeat first [ apply Forall_app; split | apply Forall_replicate
                   | apply Forall_cons; split | apply Forall_nil ];
        reflexivity. }
    rewrite Forall_fmap in Hno. exact Hno.
Qed.
